(** * Item API: a shallow embedding of [app/schemas.py] and [app/main.py]

    The service keeps validated [Item] records in one process-wide
    dictionary [items_db], keyed by integer id, and exposes create, get,
    update and delete handlers plus a welcome endpoint.

    - Python [int] is unbounded: [Z].
    - Python [str] is a sequence of Unicode code points: [list N].
    - [items_db] is a [dict] from [int] to [Item]: [gmap Z Item]; every
      handler receives the current dictionary and returns its successor.
    - [raise HTTPException(...)] ends the handler before any later
      statement runs: handlers return an [outcome]. *)

From stdpp Require Import gmap list strings.
From Stdlib Require Import Ascii DecimalString DecimalZ DecimalPos.

#[local] Set Warnings "-clear-no-such-hyp".
Local Open Scope Z_scope.

(** ** Python strings *)

Module Str.

(** A [str] value: its code points, in order. *)
Abbreviation str := (list N).

(** A source literal (all literals of the program are ASCII). *)
Fixpoint lit (s : string) : str :=
  match s with
  | EmptyString => []
  | String c s' => N_of_ascii c :: lit s'
  end.

(** [len(s)] *)
Definition len (s : str) : Z := Z.of_nat (length s).

(** The characters [str.strip()] removes when called without argument,
    i.e. those for which [str.isspace()] holds (CPython's
    [_PyUnicode_IsWhitespace]). *)
Definition isspace (c : N) : bool :=
  ((0x09 <=? c) && (c <=? 0x0D) ||
   (0x1C <=? c) && (c <=? 0x20) ||
   (c =? 0x85) || (c =? 0xA0) || (c =? 0x1680) ||
   (0x2000 <=? c) && (c <=? 0x200A) ||
   (c =? 0x2028) || (c =? 0x2029) || (c =? 0x202F) ||
   (c =? 0x205F) || (c =? 0x3000))%N.

Fixpoint lstrip (s : str) : str :=
  match s with
  | [] => []
  | c :: s' => if isspace c then lstrip s' else s
  end.

Definition rstrip (s : str) : str := rev (lstrip (rev s)).

(** [s.strip()] *)
Definition strip (s : str) : str := rstrip (lstrip s).

(** Truthiness of a string: [not s] holds exactly for the empty one. *)
Definition falsy (s : str) : bool :=
  match s with [] => true | _ :: _ => false end.

(** The surrogate code points: a [str] may hold them, UTF-8 cannot
    encode them. *)
Definition surrogate (c : N) : bool := ((0xD800 <=? c) && (c <=? 0xDFFF))%N.

(** Whether [s.encode("utf-8")] succeeds. *)
Definition utf8_encodable (s : str) : bool := forallb (λ c, negb (surrogate c)) s.

(** [str(n)] for an [int], as an f-string field [{n}] renders it. *)
Definition of_int (n : Z) : str := lit (NilZero.string_of_int (Z.to_int n)).

(** Reading a decimal numeral back, the inverse direction of [of_int];
    used only to state what [of_int] renders. *)
Definition unlit (s : str) : string :=
  fold_right (λ c acc, String (ascii_of_N c) acc) EmptyString s.

Definition parse_int (s : str) : option Z :=
  Z.of_int <$> NilZero.int_of_string (unlit s).

End Str.
Import Str.

(** ** [app/schemas.py] *)

Module Schemas.

(** [class Item(BaseModel)]: an instance carries the three declared
    fields. *)
Record Item := { id : Z; name : str; description : option str }.

(** A request body decoded into typed fields, before validation; [None]
    is a field that is absent (for [description] also JSON [null]). *)
Record ItemIn := {
  in_id : option Z;
  in_name : option str;
  in_description : option str
}.

(** The error kinds validation reports for the declared constraints. *)
Inductive ErrorType :=
  | missing
  | greater_than
  | string_unicode
  | string_too_short
  | string_too_long
  | value_error.

(** One entry per rejected field: its name and the violated constraint. *)
Abbreviation ValidationError := (list (string * ErrorType)).

(** [id: int = Field(..., gt=0)] *)
Definition validate_id (v : option Z) : ErrorType + Z :=
  match v with
  | None => inl missing
  | Some n => if bool_decide (n > 0) then inr n else inl greater_than
  end.

(** [@field_validator("name") def name_must_not_be_blank(cls, v)];
    [None] stands for [raise ValueError(...)]. *)
Definition name_must_not_be_blank (v : str) : option str :=
  if falsy (strip v) then None else Some v.

(** [name: str = Field(..., min_length=3, max_length=50)]: a constrained
    string is first read as UTF-8, which fails on a surrogate; then come
    the length checks, then the field validator on the value that passed
    them. *)
Definition validate_name (v : option str) : ErrorType + str :=
  match v with
  | None => inl missing
  | Some s =>
      if negb (utf8_encodable s) then inl string_unicode
      else if bool_decide (len s < 3) then inl string_too_short
      else if bool_decide (len s > 50) then inl string_too_long
      else match name_must_not_be_blank s with
           | None => inl value_error
           | Some s' => inr s'
           end
  end.

(** [description: Optional[str] = Field(default=None, max_length=200)] *)
Definition validate_description (v : option str) : ErrorType + option str :=
  match v with
  | None => inr None
  | Some s =>
      if negb (utf8_encodable s) then inl string_unicode
      else if bool_decide (len s > 200) then inl string_too_long
      else inr (Some s)
  end.

Definition field_error {A} (loc : string) (r : ErrorType + A) : ValidationError :=
  match r with
  | inl e => [(loc, e)]
  | inr _ => []
  end.

(** Building an [Item] from a body: every field is validated, the errors
    of all fields are collected, and an instance exists only when there
    is none. *)
Definition Item_validate (raw : ItemIn) : ValidationError + Item :=
  let ri := validate_id (in_id raw) in
  let rn := validate_name (in_name raw) in
  let rd := validate_description (in_description raw) in
  match ri, rn, rd with
  | inr i, inr n, inr d => inr {| id := i; name := n; description := d |}
  | _, _, _ =>
      inl (field_error "id" ri ++ field_error "name" rn ++
           field_error "description" rd)
  end.

(** The body that carries exactly the fields of an instance. *)
Definition fields (it : Item) : ItemIn :=
  {| in_id := Some (id it);
     in_name := Some (name it);
     in_description := description it |}.

(** Whether every string a body holds can be encoded as UTF-8. *)
Definition body_encodable (raw : ItemIn) : bool :=
  forallb utf8_encodable
    (option_list (in_name raw) ++ option_list (in_description raw)).

(** The strings of an instance hold no surrogate. *)
Definition Item_unicode (it : Item) : Prop := body_encodable (fields it) = true.

(** Whether a body passes validation. *)
Definition accepted (raw : ItemIn) : bool :=
  match Item_validate raw with
  | inr _ => true
  | inl _ => false
  end.

(** [it] is a well-formed instance: its own fields pass validation. *)
Definition Item_ok (it : Item) : bool := accepted (fields it).

End Schemas.
Import Schemas.

(** ** [app/main.py] *)

Module Main.

(** [HTTPException(status_code=..., detail=...)] *)
Record HTTPException := { status_code : Z; detail : str }.

(** How a handler ends: [return a] or [raise e]. *)
Inductive outcome (A : Type) :=
  | Return (a : A)
  | Raise (e : HTTPException).
Arguments Return {A} a.
Arguments Raise {A} e.

(** A dict literal with string keys and string values, in source order. *)
Abbreviation pydict := (list (str * str)).

(** [k in d] *)
Definition contains (k : Z) (d : gmap Z Item) : bool :=
  match d !! k with
  | Some _ => true
  | None => false
  end.

(** [items_db = {}] *)
Definition items_db0 : gmap Z Item := ∅.

Definition create_item (item : Item) (items_db : gmap Z Item)
  : outcome Item * gmap Z Item :=
  if contains (id item) items_db then
    (Raise {| status_code := 400;
              detail := lit "Item already exists with this ID" |},
     items_db)
  else
    (Return item, <[id item := item]> items_db).

Definition get_item (item_id : Z) (items_db : gmap Z Item)
  : outcome Item * gmap Z Item :=
  match items_db !! item_id with
  | None =>
      (Raise {| status_code := 404; detail := lit "Item not found" |},
       items_db)
  | Some item => (Return item, items_db)
  end.

Definition update_item (item_id : Z) (updated_item : Item)
    (items_db : gmap Z Item) : outcome Item * gmap Z Item :=
  if negb (contains item_id items_db) then
    (Raise {| status_code := 404; detail := lit "Item not found" |},
     items_db)
  else
    (Return updated_item, <[item_id := updated_item]> items_db).

(** [del items_db[item_id]] runs only behind the membership test, so the
    key is present whenever it is reached. *)
Definition delete_item (item_id : Z) (items_db : gmap Z Item)
  : outcome pydict * gmap Z Item :=
  if negb (contains item_id items_db) then
    (Raise {| status_code := 404; detail := lit "Item not found" |},
     items_db)
  else
    (Return [(lit "detail",
              lit "Item " ++ of_int item_id ++ lit " deleted successfully")],
     delete item_id items_db).

Definition read_root (items_db : gmap Z Item)
  : outcome pydict * gmap Z Item :=
  (Return [(lit "message",
            lit "Welcome to the Item API. Visit /docs for Swagger UI.")],
   items_db).

(** *** The routes

    The decorators fix the method, the path, the success status and the
    shape of the success body; a body parameter annotated [Item] is
    validated before the handler is called, and a rejected body is
    answered without calling it. *)

Inductive Request :=
  | POST_items (body : ItemIn)
  | GET_items (item_id : Z)
  | PUT_items (item_id : Z) (body : ItemIn)
  | DELETE_items (item_id : Z)
  | GET_root.

Inductive Body :=
  | JItem (it : Item)
  | JObject (d : pydict)
  | JErrors (errs : ValidationError)
  | PlainText (s : str).

Record Response := { status : Z; body : Body }.

(** A returned value is sent with the route's status code, a raised
    [HTTPException] with its own code and [{"detail": detail}]. *)
Definition respond {A} (code : Z) (enc : A -> Body) (r : outcome A)
  : Response :=
  match r with
  | Return a => {| status := code; body := enc a |}
  | Raise e =>
      {| status := status_code e; body := JObject [(lit "detail", detail e)] |}
  end.

Definition route {A} (code : Z) (enc : A -> Body)
    (h : gmap Z Item -> outcome A * gmap Z Item) (items_db : gmap Z Item)
  : Response * gmap Z Item :=
  let (r, db') := h items_db in (respond code enc r, db').

(** The answer to a rejected body. It is 422 with the list of errors,
    each of which echoes the input it rejected, and it is sent as UTF-8.
    A string with a surrogate is itself rejected and echoed, and cannot
    be encoded: sending the answer then fails and the server answers 500
    in its place. The handler is called in neither case. *)
Definition unprocessable (raw : ItemIn) (errs : ValidationError)
    (items_db : gmap Z Item) : Response * gmap Z Item :=
  if body_encodable raw then
    ({| status := 422; body := JErrors errs |}, items_db)
  else
    ({| status := 500; body := PlainText (lit "Internal Server Error") |},
     items_db).

Definition app (req : Request) (items_db : gmap Z Item)
  : Response * gmap Z Item :=
  match req with
  | POST_items raw =>
      match Item_validate raw with
      | inl errs => unprocessable raw errs items_db
      | inr item => route 201 JItem (create_item item) items_db
      end
  | GET_items item_id => route 200 JItem (get_item item_id) items_db
  | PUT_items item_id raw =>
      match Item_validate raw with
      | inl errs => unprocessable raw errs items_db
      | inr item => route 200 JItem (update_item item_id item) items_db
      end
  | DELETE_items item_id => route 200 JObject (delete_item item_id) items_db
  | GET_root => route 200 JObject read_root items_db
  end.

(** Requests served one after the other on the shared dictionary. *)
Fixpoint serve (reqs : list Request) (items_db : gmap Z Item)
  : list Response * gmap Z Item :=
  match reqs with
  | [] => ([], items_db)
  | req :: reqs' =>
      let (resp, db') := app req items_db in
      let (resps, db'') := serve reqs' db' in
      (resp :: resps, db'')
  end.

(** *** Handler calls

    A call of one of the handlers with its arguments. The framework only
    ever passes well-formed [Item] instances. *)

Inductive Call :=
  | call_create (item : Item)
  | call_get (item_id : Z)
  | call_update (item_id : Z) (updated_item : Item)
  | call_delete (item_id : Z)
  | call_root.

Definition call_ok (c : Call) : bool :=
  match c with
  | call_create item => Item_ok item
  | call_update _ updated_item => Item_ok updated_item
  | call_get _ | call_delete _ | call_root => true
  end.

(** The dictionary a call leaves behind. *)
Definition after (c : Call) (items_db : gmap Z Item) : gmap Z Item :=
  match c with
  | call_create item => snd (create_item item items_db)
  | call_get item_id => snd (get_item item_id items_db)
  | call_update item_id updated_item =>
      snd (update_item item_id updated_item items_db)
  | call_delete item_id => snd (delete_item item_id items_db)
  | call_root => snd (read_root items_db)
  end.

(** The handler call a request leads to, if its body is accepted. *)
Definition call_of (req : Request) : option Call :=
  match req with
  | POST_items raw =>
      match Item_validate raw with
      | inl _ => None
      | inr item => Some (call_create item)
      end
  | GET_items item_id => Some (call_get item_id)
  | PUT_items item_id raw =>
      match Item_validate raw with
      | inl _ => None
      | inr item => Some (call_update item_id item)
      end
  | DELETE_items item_id => Some (call_delete item_id)
  | GET_root => Some call_root
  end.

(** The states of [items_db] over the life of the process. *)
Inductive reachable : gmap Z Item -> Prop :=
  | reach_start : reachable items_db0
  | reach_call c items_db :
      reachable items_db -> call_ok c = true -> reachable (after c items_db).

End Main.
Import Main.

(** Sample data: the Items of [tests/test_main.py] and a store that
    holds the first of them. *)
Definition item1 : Item :=
  {| id := 1; name := lit "Item1"; description := Some (lit "A test item") |}.

Definition item1_updated : Item :=
  {| id := 1; name := lit "UpdatedItem";
     description := Some (lit "Updated description") |}.

Definition item999 : Item :=
  {| id := 999; name := lit "NonExistent";
     description := Some (lit "Does not exist") |}.

Definition db_item1 : gmap Z Item := snd (create_item item1 items_db0).

(** The scenario of [tests/test_main.py], in the order the tests run. *)
Definition test_requests : list Request :=
  [ POST_items {| in_id := Some 1; in_name := Some (lit "Item1");
                  in_description := Some (lit "A test item") |};
    GET_items 1;
    GET_items 999;
    PUT_items 1 {| in_id := Some 1; in_name := Some (lit "UpdatedItem");
                   in_description := Some (lit "Updated description") |};
    PUT_items 999 {| in_id := Some 999; in_name := Some (lit "NonExistent");
                     in_description := Some (lit "Does not exist") |};
    DELETE_items 1;
    DELETE_items 999 ].

(** ** The field constraints, in the words of the specification *)

Module Spec.

(** A text that consists only of whitespace. *)
Definition blank (s : str) : Prop := ∀ c, c ∈ s → isspace c = true.

(** [id > 0]; [name] of length 3 to 50 with at least one non-whitespace
    character; [description] absent or of at most 200 characters. *)
Definition constraints (i : Z) (n : str) (d : option str) : Prop :=
  i > 0 ∧
  (3 ≤ len n ≤ 50 ∧ ∃ c, c ∈ n ∧ isspace c = false) ∧
  match d with
  | None => True
  | Some s => len s ≤ 200
  end.

Definition Item_constraints (it : Item) : Prop :=
  constraints (id it) (name it) (description it).

End Spec.
Import Spec.

(** ** Runs of calls, and the id a request addresses *)

Module Runs.

(** Calls made one after the other on the shared dictionary. *)
Fixpoint run (cs : list Call) (items_db : gmap Z Item) : gmap Z Item :=
  match cs with
  | [] => items_db
  | c :: cs' => run cs' (after c items_db)
  end.

(** Whether a handler returned rather than raised. *)
Definition returned {A} (r : outcome A) : bool :=
  match r with
  | Return _ => true
  | Raise _ => false
  end.

(** An update whose body carries the id of the path (every other call
    qualifies). *)
Definition call_keyed (c : Call) : bool :=
  match c with
  | call_update item_id updated_item => bool_decide (id updated_item = item_id)
  | _ => true
  end.

(** Every stored Item sits under its own id. *)
Definition keyed (db : gmap Z Item) : Prop :=
  ∀ k it, db !! k = Some it → id it = k.

(** The id a request addresses: the id of the body for a create, the id
    of the path for the other item routes. *)
Definition req_key (req : Request) : option Z :=
  match req with
  | POST_items raw => in_id raw
  | GET_items item_id => Some item_id
  | PUT_items item_id _ => Some item_id
  | DELETE_items item_id => Some item_id
  | GET_root => None
  end.

(** Two requests that do not address the same id. *)
Definition independent (r1 r2 : Request) : Prop :=
  match req_key r1, req_key r2 with
  | Some a, Some b => a ≠ b
  | _, _ => True
  end.

End Runs.
Import Runs.

(** ** [tests/test_main.py] *)

Module Tests.

(** A value read out of a decoded response body. *)
Inductive json_value :=
  | JStr (s : str)
  | JInt (n : Z)
  | JNull
  | JList (errs : ValidationError).

(** [d[key]] on a dict literal; [None] stands for [KeyError]. *)
Fixpoint dict_get (key : str) (d : pydict) : option str :=
  match d with
  | [] => None
  | (k, v) :: d' => if bool_decide (k = key) then Some v else dict_get key d'
  end.

(** [response.json()[key]]: an Item is sent with its three fields (an
    absent description as [null]), a raised exception and a deletion as a
    one-entry object, a rejected body as [{"detail": [...]}]; a plain text
    is no JSON and decoding it fails. *)
Definition json_get (key : string) (b : Body) : option json_value :=
  match b with
  | JItem it =>
      if bool_decide (key = "id") then Some (JInt (id it))
      else if bool_decide (key = "name") then Some (JStr (name it))
      else if bool_decide (key = "description") then
        Some (match description it with
              | Some d => JStr d
              | None => JNull
              end)
      else None
  | JObject d => JStr <$> dict_get (lit key) d
  | JErrors errs =>
      if bool_decide (key = "detail") then Some (JList errs) else None
  | PlainText _ => None
  end.

(** [response.json()[key] == "..."] *)
Definition eq_str (v : option json_value) (s : string) : bool :=
  match v with
  | Some (JStr s') => bool_decide (s' = lit s)
  | _ => false
  end.

(** [response.json()[key] == n] *)
Definition eq_int (v : option json_value) (n : Z) : bool :=
  match v with
  | Some (JInt m) => bool_decide (m = n)
  | _ => false
  end.

(** Each test sends one request through the client, which shares
    [items_db] with every other test of the module, and passes when all
    its assertions hold. *)
Definition test_create_item (items_db : gmap Z Item) : bool * gmap Z Item :=
  let (response, db') :=
    app (POST_items {| in_id := Some 1; in_name := Some (lit "Item1");
                       in_description := Some (lit "A test item") |})
        items_db in
  ((status response =? 201) &&
   eq_str (json_get "name" (body response)) "Item1", db').

Definition test_get_item (items_db : gmap Z Item) : bool * gmap Z Item :=
  let (response, db') := app (GET_items 1) items_db in
  ((status response =? 200) &&
   eq_int (json_get "id" (body response)) 1, db').

Definition test_get_item_404 (items_db : gmap Z Item) : bool * gmap Z Item :=
  let (response, db') := app (GET_items 999) items_db in
  ((status response =? 404) &&
   eq_str (json_get "detail" (body response)) "Item not found", db').

Definition test_update_item (items_db : gmap Z Item) : bool * gmap Z Item :=
  let updated_data :=
    {| in_id := Some 1; in_name := Some (lit "UpdatedItem");
       in_description := Some (lit "Updated description") |} in
  let (response, db') := app (PUT_items 1 updated_data) items_db in
  ((status response =? 200) &&
   eq_str (json_get "name" (body response)) "UpdatedItem", db').

Definition test_update_item_404 (items_db : gmap Z Item)
  : bool * gmap Z Item :=
  let updated_data :=
    {| in_id := Some 999; in_name := Some (lit "NonExistent");
       in_description := Some (lit "Does not exist") |} in
  let (response, db') := app (PUT_items 999 updated_data) items_db in
  ((status response =? 404) &&
   eq_str (json_get "detail" (body response)) "Item not found", db').

Definition test_delete_item (items_db : gmap Z Item) : bool * gmap Z Item :=
  let (response, db') := app (DELETE_items 1) items_db in
  ((status response =? 200) &&
   eq_str (json_get "detail" (body response)) "Item 1 deleted successfully",
   db').

Definition test_delete_item_404 (items_db : gmap Z Item)
  : bool * gmap Z Item :=
  let (response, db') := app (DELETE_items 999) items_db in
  ((status response =? 404) &&
   eq_str (json_get "detail" (body response)) "Item not found", db').

(** The tests of the module in the order they are defined, which is the
    order they run in. *)
Definition test_main : list (gmap Z Item → bool * gmap Z Item) :=
  [ test_create_item; test_get_item; test_get_item_404; test_update_item;
    test_update_item_404; test_delete_item; test_delete_item_404 ].

(** Running tests one after the other: the verdict of each and the
    dictionary the last one leaves. *)
Fixpoint run_tests (ts : list (gmap Z Item → bool * gmap Z Item))
    (items_db : gmap Z Item) : list bool * gmap Z Item :=
  match ts with
  | [] => ([], items_db)
  | t :: ts' =>
      let (ok, db') := t items_db in
      let (oks, db'') := run_tests ts' db' in
      (ok :: oks, db'')
  end.

(** Whether every test of a run passed. *)
Definition all_passed (oks : list bool) : bool := forallb (λ b, b) oks.

End Tests.
Import Tests.

(** ** Checks on concrete inputs *)

Section Checks.

Example lit_abc : lit "abc" = [97; 98; 99]%N.
Proof. reflexivity. Qed.

Example of_int_samples :
of_int 1 = lit "1" /\ of_int 0 = lit "0" /\ of_int 999 = lit "999" /\
of_int (-42) = lit "-42".
Proof. repeat split; reflexivity. Qed.

Example isspace_samples :
  map isspace [0x20; 0x09; 0x0B; 0x1F; 0xA0; 0x3000; 0x61; 0x200B]%N
  = [true; true; true; true; true; true; false; false].
Proof. reflexivity. Qed.

Example strip_sample : strip (lit "  ab c ") = lit "ab c".
Proof. reflexivity. Qed.

Example validate_sample :
  Item_validate {| in_id := Some 1; in_name := Some (lit "Item1");
                   in_description := Some (lit "A test item") |}
  = inr {| id := 1; name := lit "Item1";
           description := Some (lit "A test item") |}.
Proof. reflexivity. Qed.

Example validate_all_errors :
  Item_validate {| in_id := Some 0; in_name := Some (lit "   ");
                   in_description := Some (repeat 120%N 201) |}
  = inl [("id", greater_than); ("name", value_error);
         ("description", string_too_long)].
Proof. reflexivity. Qed.

Example surrogate_name_rejected :
  Item_validate {| in_id := Some 2; in_name := Some [0xD800; 97; 98]%N;
                   in_description := None |}
  = inl [("name", string_unicode)].
Proof. reflexivity. Qed.

Example surrogate_body_answer :
  app (POST_items {| in_id := Some 2; in_name := Some [0xD800; 97; 98]%N;
                     in_description := None |}) items_db0
  = ({| status := 500; body := PlainText (lit "Internal Server Error") |},
     items_db0).
Proof. reflexivity. Qed.

Example blank_name_answer :
  fst (app (POST_items {| in_id := Some 2; in_name := Some (lit "   ");
                          in_description := None |}) items_db0)
  = {| status := 422; body := JErrors [("name", value_error)] |}.
Proof. reflexivity. Qed.

Example test_main_statuses :
  map status (fst (serve test_requests items_db0))
  = [201; 200; 404; 200; 404; 200; 404].
Proof. vm_compute. reflexivity. Qed.

Example test_main_delete_body :
  (fst (serve test_requests items_db0)) !! 5%nat
  = Some {| status := 200;
            body := JObject [(lit "detail", lit "Item 1 deleted successfully")] |}.
Proof. vm_compute. reflexivity. Qed.

Example test_main_final_store : snd (serve test_requests items_db0) = ∅.
Proof. vm_compute. reflexivity. Qed.

End Checks.

(** ** Strings *)

Section Strings.

Implicit Types (s : str) (c : N).

Lemma blank_Forall s : blank s ↔ Forall (λ c, isspace c = true) s.
Proof. unfold blank. by rewrite Forall_forall. Qed.

Lemma not_blank_exists s : ¬ blank s ↔ ∃ c, c ∈ s ∧ isspace c = false.
Proof.
  rewrite blank_Forall. split.
  - induction s as [| a s IH]; intros H; [by destruct H |].
    destruct (isspace a) eqn:Ha.
    + destruct IH as (c & Hc & Hs); [by intros Hs; apply H; constructor |].
      exists c. split; [by right | done].
    + exists a. split; [by left | done].
  - intros (c & Hc & Hs) Hall. rewrite Forall_forall in Hall.
    specialize (Hall c Hc). congruence.
Qed.

Lemma lstrip_nil s : lstrip s = [] ↔ blank s.
Proof.
  rewrite blank_Forall. induction s as [| c s IH]; simpl.
  - split; [constructor | done].
  - destruct (isspace c) eqn:Hc.
    + rewrite IH. split; [by constructor | by inversion 1].
    + split; [done | inversion 1; congruence].
Qed.

Lemma lstrip_head s c t : lstrip s = c :: t → isspace c = false.
Proof.
  induction s as [| a s IH]; simpl; [done |].
  destruct (isspace a) eqn:Ha; [done |]. by intros [= -> _].
Qed.

Lemma blank_rev s : blank (rev s) ↔ blank s.
Proof.
  rewrite !blank_Forall. split; intros H.
  - rewrite <- (rev_involutive s). by apply Forall_rev.
  - by apply Forall_rev.
Qed.

Lemma rev_nil s : rev s = [] ↔ s = [].
Proof.
  split; [| by intros ->].
  intros H. apply (f_equal (@rev N)) in H. by rewrite rev_involutive in H.
Qed.

(** [s.strip()] is empty exactly when [s] holds whitespace only. *)
Lemma strip_nil s : strip s = [] ↔ blank s.
Proof.
  unfold strip, rstrip. rewrite rev_nil, lstrip_nil, blank_rev.
  rewrite <- (lstrip_nil s). split; [| intros ->; by rewrite blank_Forall].
  destruct (lstrip s) as [| c t] eqn:Hl; [done |].
  intros Hb. apply lstrip_head in Hl.
  rewrite blank_Forall in Hb. inversion Hb; congruence.
Qed.

Lemma falsy_nil s : falsy s = true ↔ s = [].
Proof. by destruct s. Qed.

Lemma name_must_not_be_blank_Some s v :
  name_must_not_be_blank s = Some v ↔ v = s ∧ ¬ blank s.
Proof.
  unfold name_must_not_be_blank. rewrite <- strip_nil, <- falsy_nil.
  destruct (falsy (strip s)); naive_solver.
Qed.

Lemma name_must_not_be_blank_None s :
  name_must_not_be_blank s = None ↔ blank s.
Proof.
  unfold name_must_not_be_blank. rewrite <- strip_nil, <- falsy_nil.
  destruct (falsy (strip s)); naive_solver.
Qed.

Lemma unlit_lit (s : string) : unlit (lit s) = s.
Proof.
  induction s as [| a s IH]; simpl; [done |].
  by rewrite ascii_N_embedding, IH.
Qed.

(** [of_int n] is the decimal numeral of [n]: reading it back gives [n]. *)
Lemma parse_of_int (n : Z) : parse_int (of_int n) = Some n.
Proof.
  unfold parse_int, of_int. rewrite unlit_lit, NilZero.isi.
  - simpl. by rewrite DecimalZ.of_to.
  - destruct n as [| p | p]; simpl; try done.
    intros [= H]. by apply Unsigned.to_uint_nonnil in H.
  - destruct n as [| p | p]; simpl; try done.
    intros [= H]. by apply Unsigned.to_uint_nonnil in H.
Qed.

Lemma of_int_inj (m n : Z) : of_int m = of_int n → m = n.
Proof.
  intros H. apply (f_equal parse_int) in H.
  rewrite !parse_of_int in H. by injection H.
Qed.

End Strings.

(** ** Validation *)

Section Validation.

Implicit Types (raw : ItemIn) (it : Item).

Lemma validate_id_inr v i : validate_id v = inr i ↔ v = Some i ∧ i > 0.
Proof.
  unfold validate_id. destruct v as [n |]; [| naive_solver].
  case_bool_decide; naive_solver.
Qed.

Lemma validate_name_inr v n :
  validate_name v = inr n ↔
  v = Some n ∧ utf8_encodable n = true ∧ 3 ≤ len n ≤ 50 ∧ ¬ blank n.
Proof.
  unfold validate_name. destruct v as [s |]; [| naive_solver].
  destruct (utf8_encodable s) eqn:Hu; simpl;
    [| split; [done | intros ([= ->] & ? & _); congruence]].
  repeat case_bool_decide;
    try (split; [done | intros ([= ->] & _ & ? & _); lia]).
  destruct (name_must_not_be_blank s) as [s' |] eqn:Hv.
  - apply name_must_not_be_blank_Some in Hv as [-> Hnb].
    split; [intros [= ->]; repeat split; [done | lia | lia | done] |
            by intros ([= ->] & _)].
  - apply name_must_not_be_blank_None in Hv.
    split; [done | by intros ([= ->] & _ & _ & Hnb)].
Qed.

Lemma validate_description_inr v d :
  validate_description v = inr d ↔
  v = d ∧
  match d with
  | None => True
  | Some s => utf8_encodable s = true ∧ len s ≤ 200
  end.
Proof.
  unfold validate_description. destruct v as [s |].
  - destruct (utf8_encodable s) eqn:Hu; simpl;
      [| split; [done | intros [<- [? _]]; congruence]].
    case_bool_decide.
    + split; [done | intros [<- [_ ?]]; lia].
    + split; [intros [= <-]; repeat split; [done | lia] | by intros [<- _]].
  - split; [by intros [= <-] | by intros [<- _]].
Qed.

Lemma Item_validate_inr raw it :
  Item_validate raw = inr it ↔
  validate_id (in_id raw) = inr (id it) ∧
  validate_name (in_name raw) = inr (name it) ∧
  validate_description (in_description raw) = inr (description it).
Proof.
  unfold Item_validate. destruct it as [i n d]; simpl.
  destruct (validate_id (in_id raw)), (validate_name (in_name raw)),
    (validate_description (in_description raw)); simpl; naive_solver.
Qed.

Lemma Item_unicode_iff it :
  Item_unicode it ↔
  utf8_encodable (name it) = true ∧
  match description it with
  | None => True
  | Some s => utf8_encodable s = true
  end.
Proof.
  unfold Item_unicode, body_encodable, fields; simpl.
  rewrite andb_true_iff.
  destruct (description it) as [d |]; simpl; [| naive_solver].
  rewrite andb_true_iff. naive_solver.
Qed.

(** Validation yields [it] exactly when the body carries the fields of
    [it], these satisfy the constraints and its strings hold no
    surrogate. *)
Lemma Item_validate_iff raw it :
  Item_validate raw = inr it ↔
  raw = fields it ∧ Item_constraints it ∧ Item_unicode it.
Proof.
  rewrite Item_validate_inr, validate_id_inr, validate_name_inr,
    validate_description_inr, not_blank_exists, Item_unicode_iff.
  unfold Item_constraints, constraints, fields.
  destruct raw as [ri rn rd]; simpl.
  destruct (description it) as [d |]; naive_solver.
Qed.

Lemma accepted_iff raw : accepted raw = true ↔ ∃ it, Item_validate raw = inr it.
Proof.
  unfold accepted. destruct (Item_validate raw) as [e | it]; naive_solver.
Qed.

Lemma Item_ok_iff it :
  Item_ok it = true ↔ Item_constraints it ∧ Item_unicode it.
Proof.
  unfold Item_ok. rewrite accepted_iff. split.
  - intros (it' & (Hf & Hc)%Item_validate_iff).
    destruct it, it'; simpl in *. by injection Hf as -> -> ->.
  - intros Hc. exists it. by apply Item_validate_iff.
Qed.

Lemma Item_ok_constraints it : Item_ok it = true → Item_constraints it.
Proof. by intros [? _]%Item_ok_iff. Qed.

Lemma Item_validate_ok raw it : Item_validate raw = inr it → Item_ok it = true.
Proof. rewrite Item_ok_iff. by intros [_ ?]%Item_validate_iff. Qed.

(** A body with a string that holds a surrogate is rejected. *)
Lemma not_encodable_rejected raw : body_encodable raw = false → accepted raw = false.
Proof.
  intros Hne. destruct (accepted raw) eqn:Hacc; [| done].
  apply accepted_iff in Hacc as (it & (-> & _ & Hu)%Item_validate_iff).
  unfold Item_unicode in Hu. congruence.
Qed.

(** A rejection always names at least one field. *)
Lemma rejected_errors raw errs : Item_validate raw = inl errs → errs ≠ [].
Proof.
  unfold Item_validate.
  destruct (validate_id (in_id raw)), (validate_name (in_name raw)),
    (validate_description (in_description raw)); simpl; naive_solver.
Qed.

End Validation.

(** ** The handlers *)

Section Handlers.

Implicit Types (db items_db : gmap Z Item) (it item : Item) (k item_id : Z).

Lemma contains_true k db : contains k db = true ↔ is_Some (db !! k).
Proof.
  unfold contains. by destruct (db !! k).
Qed.

Lemma contains_false k db : contains k db = false ↔ db !! k = None.
Proof. unfold contains. by destruct (db !! k). Qed.

Lemma unprocessable_snd raw errs db : snd (unprocessable raw errs db) = db.
Proof. unfold unprocessable. by destruct (body_encodable raw). Qed.

Lemma Item_ok_validate it : Item_ok it = true → Item_validate (fields it) = inr it.
Proof. rewrite Item_ok_iff. intros Hc. by apply Item_validate_iff. Qed.

Lemma create_item_fresh item db :
  db !! id item = None →
  create_item item db = (Return item, <[id item := item]> db).
Proof. intros H%contains_false. unfold create_item. by rewrite H. Qed.

Lemma create_item_taken item db :
  is_Some (db !! id item) →
  create_item item db =
  (Raise {| status_code := 400;
            detail := lit "Item already exists with this ID" |}, db).
Proof. intros H%contains_true. unfold create_item. by rewrite H. Qed.

Lemma get_item_found item_id item db :
  db !! item_id = Some item → get_item item_id db = (Return item, db).
Proof. intros H. unfold get_item. by rewrite H. Qed.

Lemma get_item_absent item_id db :
  db !! item_id = None →
  get_item item_id db =
  (Raise {| status_code := 404; detail := lit "Item not found" |}, db).
Proof. intros H. unfold get_item. by rewrite H. Qed.

Lemma update_item_found item_id it db :
  is_Some (db !! item_id) →
  update_item item_id it db = (Return it, <[item_id := it]> db).
Proof. intros H%contains_true. unfold update_item. by rewrite H. Qed.

Lemma update_item_absent item_id it db :
  db !! item_id = None →
  update_item item_id it db =
  (Raise {| status_code := 404; detail := lit "Item not found" |}, db).
Proof. intros H%contains_false. unfold update_item. by rewrite H. Qed.

Lemma delete_item_found item_id db :
  is_Some (db !! item_id) →
  delete_item item_id db =
  (Return [(lit "detail",
            lit "Item " ++ of_int item_id ++ lit " deleted successfully")],
   delete item_id db).
Proof. intros H%contains_true. unfold delete_item. by rewrite H. Qed.

Lemma delete_item_absent item_id db :
  db !! item_id = None →
  delete_item item_id db =
  (Raise {| status_code := 404; detail := lit "Item not found" |}, db).
Proof. intros H%contains_false. unfold delete_item. by rewrite H. Qed.

End Handlers.

(** ** Create and get *)

Section CreateGet.

Implicit Types (db : gmap Z Item) (it A : Item) (item_id : Z).

(** C1: for a valid Item [A] and a store in which [id A] is not a key,
    the create handler returns [A] and the get handler, called with
    [id A] on the store create left behind, returns [A] unchanged (the
    same id, name and description); served over HTTP the two requests
    answer 201 and 200, each with [A] as body. *)
Theorem create_then_get A db :
  Item_ok A = true →
  db !! id A = None →
  let db1 := snd (create_item A db) in
  fst (create_item A db) = Return A ∧
  get_item (id A) db1 = (Return A, db1) ∧
  (∃ got, fst (get_item (id A) db1) = Return got ∧
          id got = id A ∧ name got = name A ∧
          description got = description A) ∧
  serve [POST_items (fields A); GET_items (id A)] db =
  ([ {| status := 201; body := JItem A |};
     {| status := 200; body := JItem A |} ], db1).
Proof.
  intros Hok Hfresh db1. subst db1.
  assert (Hget : get_item (id A) (<[id A := A]> db)
                 = (Return A, <[id A := A]> db)).
  { apply get_item_found, lookup_insert_eq. }
  rewrite (create_item_fresh _ _ Hfresh). simpl.
  repeat split; [done | | ].
  - exists A. by rewrite Hget.
  - rewrite (Item_ok_validate _ Hok). unfold route.
    by rewrite (create_item_fresh _ _ Hfresh), Hget.
Qed.

(** C2: for a valid Item whose id is already a key, the create handler
    raises 400 with detail "Item already exists with this ID" (over HTTP:
    status 400 and that detail as body), and the store is unchanged: the
    key still maps to the value stored before and the set of keys is the
    same. *)
Theorem create_duplicate_rejected it db :
  Item_ok it = true →
  is_Some (db !! id it) →
  let db1 := snd (create_item it db) in
  fst (create_item it db) =
    Raise {| status_code := 400;
             detail := lit "Item already exists with this ID" |} ∧
  fst (app (POST_items (fields it)) db) =
    {| status := 400;
       body := JObject [(lit "detail",
                         lit "Item already exists with this ID")] |} ∧
  snd (app (POST_items (fields it)) db) = db ∧
  db1 = db ∧ db1 !! id it = db !! id it ∧ dom db1 = dom db.
Proof.
  intros Hok Hin db1. subst db1.
  cbn [app]. rewrite (Item_ok_validate _ Hok). unfold route.
  by rewrite (create_item_taken _ _ Hin).
Qed.

(** C10: create is not idempotent. A valid Item whose id is already a
    key is rejected with 400 even when the stored Item is field for field
    the same; and after a successful create, the same request sent again,
    any number of times, is answered 400 every time and leaves the store
    as the first create left it. *)
Theorem create_not_idempotent it db :
  Item_ok it = true →
  (db !! id it = Some it →
   create_item it db =
   (Raise {| status_code := 400;
             detail := lit "Item already exists with this ID" |}, db)) ∧
  (db !! id it = None →
   let db1 := snd (create_item it db) in
   fst (create_item it db) = Return it ∧
   db1 !! id it = Some it ∧
   ∀ n : nat,
     serve (replicate n (POST_items (fields it))) db1 =
     (replicate n
        {| status := 400;
           body := JObject [(lit "detail",
                             lit "Item already exists with this ID")] |},
      db1)).
Proof.
  intros Hok. split.
  - intros Hsame. apply create_item_taken. by rewrite Hsame.
  - intros Hfresh db1. subst db1.
    rewrite (create_item_fresh _ _ Hfresh). simpl.
    split; [done |]. split; [apply lookup_insert_eq |].
    induction n as [| n IH]; [done |].
    cbn [replicate serve app]. rewrite (Item_ok_validate _ Hok). unfold route.
    rewrite create_item_taken by (rewrite lookup_insert_eq; by eexists).
    by rewrite IH.
Qed.

End CreateGet.

(** ** Update, delete and absent ids *)

Section UpdateDelete.

Implicit Types (db : gmap Z Item) (it : Item) (item_id : Z).

(** C3: update replaces the full record. For an id that is a key and a
    valid Item [it], the update handler returns [it], and the get handler
    called with that id afterwards returns exactly [it]: each field is the
    field of [it], whatever was stored before. *)
Theorem update_replaces item_id it db :
  Item_ok it = true →
  is_Some (db !! item_id) →
  let db1 := snd (update_item item_id it db) in
  fst (update_item item_id it db) = Return it ∧
  get_item item_id db1 = (Return it, db1) ∧
  (∃ got, fst (get_item item_id db1) = Return got ∧
          id got = id it ∧ name got = name it ∧
          description got = description it) ∧
  serve [PUT_items item_id (fields it); GET_items item_id] db =
  ([ {| status := 200; body := JItem it |};
     {| status := 200; body := JItem it |} ], db1).
Proof.
  intros Hok Hin db1. subst db1.
  assert (Hget : get_item item_id (<[item_id := it]> db)
                 = (Return it, <[item_id := it]> db)).
  { apply get_item_found, lookup_insert_eq. }
  rewrite (update_item_found _ it _ Hin). simpl.
  repeat split; [done | | ].
  - exists it. by rewrite Hget.
  - rewrite (Item_ok_validate _ Hok). unfold route.
    by rewrite (update_item_found _ it _ Hin), Hget.
Qed.

(** C4: update stores the body under the key of the path and does not
    reconcile the two ids. For an id that is a key and a valid Item [it]
    with [id it] different from it, the store afterwards maps the path id
    to [it], so the id field of the stored Item differs from its key; the
    entry at key [id it] is what it was (none is created there) and the
    set of keys is unchanged. *)
Theorem update_keeps_path_key item_id it db :
  Item_ok it = true →
  is_Some (db !! item_id) →
  id it ≠ item_id →
  let db1 := snd (update_item item_id it db) in
  db1 !! item_id = Some it ∧
  (∃ stored, db1 !! item_id = Some stored ∧ id stored ≠ item_id) ∧
  db1 !! id it = db !! id it ∧
  (db !! id it = None → db1 !! id it = None) ∧
  dom db1 = dom db.
Proof.
  intros _ Hin Hne db1. subst db1.
  rewrite (update_item_found _ it _ Hin). simpl.
  assert (Hother : <[item_id := it]> db !! id it = db !! id it)
    by (by apply lookup_insert_ne).
  repeat split.
  - apply lookup_insert_eq.
  - exists it. split; [apply lookup_insert_eq | done].
  - done.
  - by rewrite Hother.
  - rewrite dom_insert_L. apply elem_of_dom in Hin. set_solver.
Qed.

(** C5: for an id that is not a key, each of get, update (with any valid
    Item) and delete raises 404 with detail "Item not found" (over HTTP:
    status 404 and that detail as body) and leaves the store as it was. *)
Theorem absent_id_not_found item_id it db :
  Item_ok it = true →
  db !! item_id = None →
  let not_found :=
    {| status_code := 404; detail := lit "Item not found" |} in
  let response :=
    {| status := 404;
       body := JObject [(lit "detail", lit "Item not found")] |} in
  get_item item_id db = (Raise not_found, db) ∧
  update_item item_id it db = (Raise not_found, db) ∧
  delete_item item_id db = (Raise not_found, db) ∧
  app (GET_items item_id) db = (response, db) ∧
  app (PUT_items item_id (fields it)) db = (response, db) ∧
  app (DELETE_items item_id) db = (response, db).
Proof.
  intros Hok Habs not_found response. cbn [app].
  rewrite (Item_ok_validate _ Hok). unfold route.
  rewrite (get_item_absent _ _ Habs), (update_item_absent _ it _ Habs),
    (delete_item_absent _ _ Habs).
  by repeat split.
Qed.

(** C6: for an id that is a key, delete answers status 200 with detail
    "Item {id} deleted successfully", the id rendered as its decimal
    numeral; afterwards the id is not a key, and a get or a delete of
    that id raises 404 "Item not found". *)
Theorem delete_removes item_id db :
  is_Some (db !! item_id) →
  let db1 := snd (delete_item item_id db) in
  let message :=
    lit "Item " ++ of_int item_id ++ lit " deleted successfully" in
  let not_found :=
    {| status_code := 404; detail := lit "Item not found" |} in
  fst (delete_item item_id db) = Return [(lit "detail", message)] ∧
  app (DELETE_items item_id) db =
    ({| status := 200; body := JObject [(lit "detail", message)] |}, db1) ∧
  parse_int (of_int item_id) = Some item_id ∧
  contains item_id db1 = false ∧
  db1 !! item_id = None ∧
  get_item item_id db1 = (Raise not_found, db1) ∧
  delete_item item_id db1 = (Raise not_found, db1) ∧
  fst (app (GET_items item_id) db1) =
    {| status := 404; body := JObject [(lit "detail", lit "Item not found")] |} ∧
  fst (app (DELETE_items item_id) db1) =
    {| status := 404; body := JObject [(lit "detail", lit "Item not found")] |}.
Proof.
  intros Hin db1 message not_found. subst db1. cbn [app]. unfold route.
  rewrite (delete_item_found _ _ Hin). cbn [fst snd].
  assert (Hgone : delete item_id db !! item_id = None)
    by apply lookup_delete_eq.
  rewrite (get_item_absent _ _ Hgone), (delete_item_absent _ _ Hgone).
  repeat split; try done.
  - apply parse_of_int.
  - by apply contains_false.
Qed.

End UpdateDelete.

(** ** Validation at the boundary *)

Section Boundary.

Implicit Types (raw : ItemIn) (db : gmap Z Item).

Lemma accepted_constraints raw :
  accepted raw = true →
  ∃ it, raw = fields it ∧ Item_constraints it ∧ Item_unicode it.
Proof.
  intros (it & H%Item_validate_iff)%accepted_iff. by exists it.
Qed.

Lemma accepted_false raw :
  (∀ it, raw = fields it → ¬ Item_constraints it) → accepted raw = false.
Proof.
  intros H. destruct (accepted raw) eqn:Hacc; [| done].
  apply accepted_constraints in Hacc as (it & Hf & Hc & _).
  by destruct (H it Hf).
Qed.

Lemma validate_accepts i n d :
  i > 0 → 3 ≤ len n ≤ 50 → ¬ blank n → utf8_encodable n = true →
  match d with
  | None => True
  | Some s => len s ≤ 200 ∧ utf8_encodable s = true
  end →
  Item_validate {| in_id := Some i; in_name := Some n; in_description := d |}
  = inr {| id := i; name := n; description := d |}.
Proof.
  intros Hi Hlen Hnb Hu Hd. apply Item_validate_iff.
  split; [done |]. rewrite Item_unicode_iff.
  unfold Item_constraints, constraints; simpl.
  rewrite <- not_blank_exists. destruct d as [s |]; naive_solver.
Qed.

Lemma rejected_untouched raw db :
  accepted raw = false →
  let code := if body_encodable raw then 422 else 500 in
  snd (app (POST_items raw) db) = db ∧
  status (fst (app (POST_items raw) db)) = code ∧
  ∀ item_id,
    snd (app (PUT_items item_id raw) db) = db ∧
    status (fst (app (PUT_items item_id raw) db)) = code.
Proof.
  unfold accepted. cbn [app]. unfold unprocessable.
  destruct (Item_validate raw) as [errs | it]; [| done].
  by destruct (body_encodable raw).
Qed.

Lemma rejected_no_call raw item_id :
  accepted raw = false →
  call_of (POST_items raw) = None ∧ call_of (PUT_items item_id raw) = None.
Proof.
  unfold accepted. simpl. by destruct (Item_validate raw).
Qed.

Lemma no_call_untouched req db : call_of req = None → snd (app req db) = db.
Proof.
  destruct req as [raw | item_id | item_id raw | item_id |]; simpl; try done;
    unfold unprocessable;
    (destruct (Item_validate raw) as [errs | it]; [| done]);
    by destruct (body_encodable raw).
Qed.

(** C7, amended: validation accepts exactly the bodies whose fields
    satisfy the constraints and whose name and description hold no
    surrogate code point. A name of 2 characters is rejected and a name
    of 3 characters with one that is not whitespace and no surrogate is
    accepted, the length being that of the untrimmed text (the name " a "
    passes and is kept as it is); a name of whitespace only is rejected
    whatever its length; an id that is 0 or negative is rejected; a
    description of 201 characters is rejected and an absent one is
    accepted; a name or a description with a surrogate is rejected. A
    rejected body leads to no handler call and leaves the store as it
    was, whatever number of such requests is served. *)
Theorem validation_boundaries :
  (∀ raw it,
     Item_validate raw = inr it ↔
     raw = fields it ∧ Item_constraints it ∧ Item_unicode it) ∧
  (∀ raw n, in_name raw = Some n → len n = 2 → accepted raw = false) ∧
  (∀ i n d,
     i > 0 → len n = 3 → ¬ blank n → utf8_encodable n = true →
     match d with
     | None => True
     | Some s => len s ≤ 200 ∧ utf8_encodable s = true
     end →
     Item_validate {| in_id := Some i; in_name := Some n;
                      in_description := d |}
     = inr {| id := i; name := n; description := d |}) ∧
  Item_validate {| in_id := Some 1; in_name := Some (lit " a ");
                   in_description := None |}
  = inr {| id := 1; name := lit " a "; description := None |} ∧
  (∀ raw n, in_name raw = Some n → blank n → accepted raw = false) ∧
  (∀ raw i, in_id raw = Some i → i ≤ 0 → accepted raw = false) ∧
  (∀ raw d, in_description raw = Some d → len d = 201 →
            accepted raw = false) ∧
  (∀ i n,
     i > 0 → 3 ≤ len n ≤ 50 → ¬ blank n → utf8_encodable n = true →
     Item_validate {| in_id := Some i; in_name := Some n;
                      in_description := None |}
     = inr {| id := i; name := n; description := None |}) ∧
  (∀ raw s,
     in_name raw = Some s ∨ in_description raw = Some s →
     utf8_encodable s = false → accepted raw = false) ∧
  (∀ raw db,
     accepted raw = false →
     snd (app (POST_items raw) db) = db ∧
     ∀ item_id,
       snd (app (PUT_items item_id raw) db) = db ∧
       call_of (POST_items raw) = None ∧
       call_of (PUT_items item_id raw) = None) ∧
  (∀ reqs db,
     (∀ req, req ∈ reqs → call_of req = None) → snd (serve reqs db) = db).
Proof.
  split; [apply Item_validate_iff |].
  split.
  { intros raw n Hn Hlen. apply accepted_false.
    intros it -> (_ & ((Hlo & _) & _) & _). simpl in Hn.
    injection Hn as <-. lia. }
  split.
  { intros i n d Hi Hlen Hnb Hu Hd. apply validate_accepts; (done || lia). }
  split; [reflexivity |].
  split.
  { intros raw n Hn Hb. apply accepted_false.
    intros it -> (_ & (_ & Hnb%not_blank_exists) & _). simpl in Hn.
    injection Hn as <-. done. }
  split.
  { intros raw i Hi Hle. apply accepted_false.
    intros it -> (Hpos & _). simpl in Hi. injection Hi as <-. lia. }
  split.
  { intros raw d Hd Hlen. apply accepted_false.
    intros it -> (_ & _ & Hdesc). simpl in Hd. rewrite Hd in Hdesc. lia. }
  split.
  { intros i n Hi Hlen Hnb Hu. by apply validate_accepts. }
  split.
  { intros raw s Hs Hu. apply not_encodable_rejected.
    unfold body_encodable. apply not_true_iff_false.
    rewrite forallb_forall. intros Hall.
    assert (Hin : In s (option_list (in_name raw) ++
                        option_list (in_description raw))).
    { apply in_or_app. destruct Hs as [-> | ->]; [left | right]; by left. }
    specialize (Hall s Hin). congruence. }
  split.
  { intros raw db Hrej.
    destruct (rejected_untouched raw db Hrej) as (Hpost & _ & Hput).
    split; [done |]. intros item_id.
    destruct (Hput item_id) as [Hp _].
    destruct (rejected_no_call raw item_id Hrej) as [Hc1 Hc2].
    by repeat split. }
  intros reqs. induction reqs as [| req reqs IH]; intros db Hall; [done |].
  simpl. pose proof (no_call_untouched req db) as Hreq.
  destruct (app req db) as [resp db1]. simpl in Hreq.
  rewrite Hreq in * by (apply Hall; by left).
  specialize (IH db). destruct (serve reqs db) as [resps db2]. simpl in *.
  apply IH. intros r Hr. apply Hall. by right.
Qed.

(** C7 as the specification words it does not hold: the name made of a
    surrogate followed by "ab" has 3 characters, two of them not
    whitespace, and with id 1 and no description it satisfies the three
    field constraints; validation rejects it all the same. *)
Lemma validation_surrogate_counterexample :
  constraints 1 [0xD800; 97; 98]%N None ∧
  len [0xD800; 97; 98]%N = 3 ∧
  Item_validate {| in_id := Some 1; in_name := Some [0xD800; 97; 98]%N;
                   in_description := None |}
  = inl [("name", string_unicode)] ∧
  ¬ (∀ raw it,
       raw = fields it ∧ Item_constraints it → Item_validate raw = inr it).
Proof.
  assert (Hc : constraints 1 [0xD800; 97; 98]%N None).
  { split; [done |]. split; [| done]. split; [by vm_compute |].
    exists 97%N. split; [| done]. apply list_elem_of_further, list_elem_of_here. }
  split; [exact Hc |]. split; [reflexivity |]. split; [reflexivity |].
  intros Hall.
  specialize (Hall (fields {| id := 1; name := [0xD800; 97; 98]%N;
                              description := None |}) _ (conj eq_refl Hc)).
  discriminate Hall.
Qed.

End Boundary.

(** ** The store over time *)

Section Store.

Implicit Types (db : gmap Z Item) (it item : Item) (k item_id : Z)
  (c : Call) (req : Request).

(** What a call can leave at a key: the entry that was there, or the
    Item the call was given. *)
Lemma after_lookup c db k it :
  after c db !! k = Some it →
  db !! k = Some it ∨
  c = call_create it ∨ ∃ item_id, c = call_update item_id it.
Proof.
  destruct c as [item | item_id | item_id item | item_id |]; simpl.
  - unfold create_item. destruct (contains (id item) db); simpl; [by left |].
    destruct (decide (id item = k)) as [-> | Hne].
    + rewrite lookup_insert_eq. intros [= ->]. right. by left.
    + rewrite lookup_insert_ne by done. by left.
  - unfold get_item. destruct (db !! item_id); simpl; by left.
  - unfold update_item. destruct (contains item_id db); simpl; [| by left].
    destruct (decide (item_id = k)) as [-> | Hne].
    + rewrite lookup_insert_eq. intros [= ->]. right. right. by eexists.
    + rewrite lookup_insert_ne by done. by left.
  - unfold delete_item. destruct (contains item_id db); simpl; [| by left].
    destruct (decide (item_id = k)) as [-> | Hne].
    + by rewrite lookup_delete_eq.
    + rewrite lookup_delete_ne by done. by left.
  - by left.
Qed.

(** Only well-formed instances are ever stored. *)
Lemma reachable_Item_ok db k it :
  reachable db → db !! k = Some it → Item_ok it = true.
Proof.
  intros Hreach. revert k it.
  induction Hreach as [| c db Hreach IH Hok]; intros k it Hk.
  - unfold items_db0 in Hk. by rewrite lookup_empty in Hk.
  - apply after_lookup in Hk as [Hold | [-> | [item_id ->]]];
      [by apply (IH k) | done | done].
Qed.

(** C8: in every state the store reaches from the empty one through
    calls of the create, get, update and delete handlers (and the welcome
    endpoint), every Item it holds satisfies the three field constraints:
    id above 0; name of 3 to 50 characters with at least one that is not
    whitespace; description absent or of at most 200 characters. *)
Theorem store_invariant db k it :
  reachable db →
  db !! k = Some it →
  id it > 0 ∧
  (3 ≤ len (name it) ≤ 50 ∧ ∃ ch, ch ∈ name it ∧ isspace ch = false) ∧
  match description it with
  | None => True
  | Some s => len s ≤ 200
  end.
Proof.
  intros Hreach Hk. apply (Item_ok_constraints it).
  by apply (reachable_Item_ok db k).
Qed.

Lemma call_of_ok req c : call_of req = Some c → call_ok c = true.
Proof.
  destruct req as [raw | item_id | item_id raw | item_id |]; simpl.
  - destruct (Item_validate raw) as [errs | item] eqn:Hv; [done |].
    intros [= <-]. by apply (Item_validate_ok raw).
  - by intros [= <-].
  - destruct (Item_validate raw) as [errs | item] eqn:Hv; [done |].
    intros [= <-]. by apply (Item_validate_ok raw).
  - by intros [= <-].
  - by intros [= <-].
Qed.

(** A request changes the store only through the handler call it leads
    to. *)
Lemma app_after req db :
  snd (app req db) = match call_of req with
                     | Some c => after c db
                     | None => db
                     end.
Proof.
  destruct req as [raw | item_id | item_id raw | item_id |]; simpl;
    try destruct (Item_validate raw) as [errs | item]; simpl;
    unfold route, unprocessable;
    match goal with
    | |- context [let (_, _) := ?h in _] => by destruct h
    | |- context [body_encodable ?r] => by destruct (body_encodable r)
    | _ => done
    end.
Qed.

Lemma app_reachable req db : reachable db → reachable (snd (app req db)).
Proof.
  intros Hreach. rewrite app_after.
  destruct (call_of req) as [c |] eqn:Hc; [| done].
  apply reach_call; [done | by apply (call_of_ok req)].
Qed.

(** Whatever requests are served, the store stays within the reachable
    states, so the invariant holds of it. *)
Lemma serve_reachable reqs db :
  reachable db → reachable (snd (serve reqs db)).
Proof.
  revert db. induction reqs as [| req reqs IH]; intros db Hreach; [done |].
  simpl. pose proof (app_reachable req db Hreach) as Hstep.
  destruct (app req db) as [resp db1]. simpl in Hstep.
  specialize (IH db1 Hstep). by destruct (serve reqs db1).
Qed.

Lemma serve_invariant reqs k it :
  snd (serve reqs items_db0) !! k = Some it → Item_constraints it.
Proof.
  intros Hk. apply Item_ok_constraints.
  apply (reachable_Item_ok (snd (serve reqs items_db0)) k); [| done].
  apply serve_reachable, reach_start.
Qed.

Lemma serve_app reqs1 reqs2 db :
  serve (reqs1 ++ reqs2) db =
  (fst (serve reqs1 db) ++ fst (serve reqs2 (snd (serve reqs1 db))),
   snd (serve reqs2 (snd (serve reqs1 db)))).
Proof.
  revert db. induction reqs1 as [| req reqs1 IH]; intros db; simpl.
  - by destruct (serve reqs2 db).
  - destruct (app req db) as [resp db1]. rewrite IH.
    by destruct (serve reqs1 db1).
Qed.

(** C9: frame. The answer to a request and the store it leaves depend on
    the request and the store it finds, not on the history before; a
    successful create adds exactly the key [id item] and leaves every
    other entry as it was; create, update and delete never touch an entry
    at another key, and update and delete change the set of keys by at
    most the given id; get and the welcome endpoint leave the store
    unchanged. At its own key each handler does exactly this: update of a
    key leaves the given Item there, delete leaves no entry there, and a
    create of a taken id or an update of an absent one leaves the whole
    store as it was. *)
Theorem handlers_frame db :
  (∀ reqs1 reqs2 req,
     snd (serve reqs1 db) = snd (serve reqs2 db) →
     serve (reqs1 ++ [req]) db =
       (fst (serve reqs1 db) ++ [fst (app req (snd (serve reqs1 db)))],
        snd (app req (snd (serve reqs1 db)))) ∧
     last (fst (serve (reqs1 ++ [req]) db)) =
       last (fst (serve (reqs2 ++ [req]) db)) ∧
     snd (serve (reqs1 ++ [req]) db) = snd (serve (reqs2 ++ [req]) db)) ∧
  (∀ item,
     db !! id item = None →
     let db1 := snd (create_item item db) in
     dom db1 = {[id item]} ∪ dom db ∧ (id item ∉ dom db) ∧
     db1 !! id item = Some item ∧
     ∀ k, k ≠ id item → db1 !! k = db !! k) ∧
  (∀ item k, k ≠ id item → snd (create_item item db) !! k = db !! k) ∧
  (∀ item_id it k,
     k ≠ item_id → snd (update_item item_id it db) !! k = db !! k) ∧
  (∀ item_id it, dom (snd (update_item item_id it db)) = dom db) ∧
  (∀ item_id k, k ≠ item_id → snd (delete_item item_id db) !! k = db !! k) ∧
  (∀ item_id, dom (snd (delete_item item_id db)) = dom db ∖ {[item_id]}) ∧
  (∀ item_id, snd (get_item item_id db) = db) ∧
  snd (read_root db) = db ∧
  (∀ item_id it,
     is_Some (db !! item_id) →
     snd (update_item item_id it db) !! item_id = Some it) ∧
  (∀ item_id it,
     db !! item_id = None → snd (update_item item_id it db) = db) ∧
  (∀ item_id, snd (delete_item item_id db) !! item_id = None) ∧
  (∀ item, is_Some (db !! id item) → snd (create_item item db) = db).
Proof.
  split.
  { intros reqs1 reqs2 req Heq.
    assert (Hsnoc : ∀ reqs,
      serve (reqs ++ [req]) db =
      (fst (serve reqs db) ++ [fst (app req (snd (serve reqs db)))],
       snd (app req (snd (serve reqs db))))).
    { intros reqs. rewrite serve_app. simpl.
      by destruct (app req (snd (serve reqs db))). }
    split; [apply Hsnoc |]. rewrite !Hsnoc. simpl.
    rewrite !last_snoc, Heq. done. }
  split.
  { intros item Hfresh db1. subst db1.
    rewrite (create_item_fresh _ _ Hfresh). simpl.
    split; [apply dom_insert_L |].
    split; [by apply not_elem_of_dom |].
    split; [apply lookup_insert_eq |].
    intros k Hk. by apply lookup_insert_ne. }
  split.
  { intros item k Hk. unfold create_item.
    destruct (contains (id item) db); simpl; [done |].
    by apply lookup_insert_ne. }
  split.
  { intros item_id it k Hk. unfold update_item.
    destruct (contains item_id db); simpl; [| done].
    by apply lookup_insert_ne. }
  split.
  { intros item_id it. unfold update_item.
    destruct (contains item_id db) eqn:Hc; simpl; [| done].
    apply contains_true, elem_of_dom in Hc.
    rewrite dom_insert_L. set_solver. }
  split.
  { intros item_id k Hk. unfold delete_item.
    destruct (contains item_id db); simpl; [| done].
    by apply lookup_delete_ne. }
  split.
  { intros item_id. unfold delete_item.
    destruct (contains item_id db) eqn:Hc; simpl.
    - by rewrite dom_delete_L.
    - apply contains_false, not_elem_of_dom in Hc. set_solver. }
  split.
  { intros item_id. unfold get_item. by destruct (db !! item_id). }
  split; [done |].
  split.
  { intros item_id it Hin. rewrite (update_item_found _ it _ Hin).
    apply lookup_insert_eq. }
  split.
  { intros item_id it Habs. by rewrite (update_item_absent _ it _ Habs). }
  split.
  { intros item_id. unfold delete_item.
    destruct (contains item_id db) eqn:Hc; simpl.
    - apply lookup_delete_eq.
    - by apply contains_false. }
  intros item Hin. by rewrite (create_item_taken _ _ Hin).
Qed.

End Store.

(** ** Instances on the data of the test suite *)

Section Instances.

Lemma db_item1_lookup : db_item1 !! 1 = Some item1.
Proof. reflexivity. Qed.

Lemma create_then_get_witness :
  Item_ok item1 = true ∧ items_db0 !! id item1 = None ∧
  get_item (id item1) db_item1 = (Return item1, db_item1).
Proof.
  split; [reflexivity |]. split; [reflexivity |].
  apply (create_then_get item1 items_db0); reflexivity.
Defined.

Lemma create_duplicate_rejected_witness :
  Item_ok item1_updated = true ∧ is_Some (db_item1 !! id item1_updated) ∧
  snd (create_item item1_updated db_item1) !! 1 = Some item1.
Proof.
  assert (Hin : is_Some (db_item1 !! id item1_updated))
    by (exists item1; reflexivity).
  split; [reflexivity |]. split; [exact Hin |].
  destruct (create_duplicate_rejected item1_updated db_item1 eq_refl Hin)
    as (_ & _ & _ & _ & Hsame & _).
  simpl in Hsame. rewrite Hsame. reflexivity.
Defined.

Lemma update_replaces_witness :
  Item_ok item1_updated = true ∧ is_Some (db_item1 !! 1) ∧
  get_item 1 (snd (update_item 1 item1_updated db_item1))
  = (Return item1_updated, snd (update_item 1 item1_updated db_item1)).
Proof.
  assert (Hin : is_Some (db_item1 !! 1)) by (exists item1; reflexivity).
  split; [reflexivity |]. split; [exact Hin |].
  apply (update_replaces 1 item1_updated db_item1); [reflexivity | exact Hin].
Defined.

Lemma update_keeps_path_key_witness :
  Item_ok item999 = true ∧ is_Some (db_item1 !! 1) ∧ id item999 ≠ 1 ∧
  snd (update_item 1 item999 db_item1) !! 1 = Some item999 ∧
  snd (update_item 1 item999 db_item1) !! 999 = None.
Proof.
  assert (Hin : is_Some (db_item1 !! 1)) by (exists item1; reflexivity).
  assert (Hne : id item999 ≠ 1) by (simpl; lia).
  split; [reflexivity |]. split; [exact Hin |]. split; [exact Hne |].
  destruct (update_keeps_path_key 1 item999 db_item1 eq_refl Hin Hne)
    as (Hat & _ & _ & Hnone & _).
  split; [exact Hat | apply Hnone; reflexivity].
Defined.

Lemma absent_id_not_found_witness :
  Item_ok item999 = true ∧ db_item1 !! 999 = None ∧
  update_item 999 item999 db_item1 =
  (Raise {| status_code := 404; detail := lit "Item not found" |}, db_item1).
Proof.
  split; [reflexivity |]. split; [reflexivity |].
  apply (absent_id_not_found 999 item999 db_item1); reflexivity.
Defined.

Lemma delete_removes_witness :
  is_Some (db_item1 !! 1) ∧
  fst (delete_item 1 db_item1)
  = Return [(lit "detail", lit "Item 1 deleted successfully")] ∧
  snd (delete_item 1 db_item1) !! 1 = None.
Proof.
  assert (Hin : is_Some (db_item1 !! 1)) by (exists item1; reflexivity).
  split; [exact Hin |].
  destruct (delete_removes 1 db_item1 Hin) as (Hret & _ & _ & _ & Hgone & _).
  split; [exact Hret | exact Hgone].
Defined.

Lemma validation_boundaries_witness :
  let body i n d :=
    {| in_id := Some i; in_name := Some (lit n); in_description := d |} in
  accepted (body 1 "ab" None) = false ∧
  Item_validate (body 1 "abc" None)
  = inr {| id := 1; name := lit "abc"; description := None |} ∧
  accepted (body 1 "      " None) = false ∧
  accepted (body 0 "Item1" None) = false ∧
  accepted (body (-7) "Item1" None) = false ∧
  accepted (body 1 "Item1" (Some (replicate 201 120%N))) = false ∧
  accepted {| in_id := Some 1; in_name := Some [0xD800; 97; 98]%N;
              in_description := None |} = false ∧
  snd (app (POST_items (body 0 "Item1" None)) db_item1) = db_item1.
Proof.
  intros body.
  destruct validation_boundaries
    as (_ & Htwo & Hthree & _ & Hblank & Hid & Hdesc & _ & Hsur & Hstore & _).
  split; [apply (Htwo _ (lit "ab")); reflexivity |].
  split.
  { apply Hthree; [reflexivity | reflexivity | | reflexivity | exact I].
    intros Hb. specialize (Hb 97%N). discriminate Hb.
    apply list_elem_of_here. }
  split.
  { apply (Hblank _ (lit "      ")); [reflexivity |].
    apply blank_Forall. repeat constructor. }
  split; [apply (Hid _ 0); [reflexivity | lia] |].
  split; [apply (Hid _ (-7)); [reflexivity | lia] |].
  split; [apply (Hdesc _ (replicate 201 120%N)); reflexivity |].
  split; [apply (Hsur _ [0xD800; 97; 98]%N); [by left | reflexivity] |].
  apply Hstore. reflexivity.
Defined.

Lemma store_invariant_witness :
  reachable db_item1 ∧ db_item1 !! 1 = Some item1 ∧ Item_constraints item1.
Proof.
  assert (Hreach : reachable db_item1).
  { apply (reach_call (call_create item1) items_db0);
      [apply reach_start | reflexivity]. }
  split; [exact Hreach |]. split; [reflexivity |].
  apply (store_invariant db_item1 1 item1 Hreach). reflexivity.
Defined.

Lemma handlers_frame_witness :
  snd (create_item item999 db_item1) !! 1 = Some item1 ∧
  snd (delete_item 999 db_item1) !! 1 = Some item1 ∧
  snd (update_item 1 item1_updated db_item1) !! 999 = None ∧
  snd (update_item 1 item1_updated db_item1) !! 1 = Some item1_updated.
Proof.
  destruct (handlers_frame db_item1)
    as (_ & _ & Hcreate & Hupdate & _ & Hdelete & _ & _ & _ & Hwrite & _).
  split; [rewrite (Hcreate item999 1); [reflexivity | simpl; lia] |].
  split; [rewrite (Hdelete 999 1); [reflexivity | lia] |].
  split; [rewrite (Hupdate 1 item1_updated 999); [reflexivity | lia] |].
  apply Hwrite. exists item1. reflexivity.
Defined.

Lemma create_not_idempotent_witness :
  Item_ok item1 = true ∧ db_item1 !! id item1 = Some item1 ∧
  create_item item1 db_item1 =
  (Raise {| status_code := 400;
            detail := lit "Item already exists with this ID" |}, db_item1).
Proof.
  split; [reflexivity |]. split; [reflexivity |].
  apply (create_not_idempotent item1 db_item1); reflexivity.
Defined.

End Instances.

(** ** More on the name validator and the field bounds *)

Section Validator.

Implicit Types (s v : str) (raw : ItemIn).

Lemma lstrip_split s : ∃ p, s = p ++ lstrip s ∧ blank p.
Proof.
  induction s as [| a s (p & Hs & Hp)]; simpl.
  - exists []. split; [done |]. intros c Hc. by apply elem_of_nil in Hc.
  - destruct (isspace a) eqn:Ha.
    + exists (a :: p). split; [simpl; by rewrite <- Hs |].
      intros c [-> | Hc]%elem_of_cons; [done | by apply Hp].
    + exists []. split; [done |]. intros c Hc. by apply elem_of_nil in Hc.
Qed.

Lemma rstrip_split s : ∃ q, s = rstrip s ++ q ∧ blank q.
Proof.
  destruct (lstrip_split (rev s)) as (p & Hs & Hp).
  exists (rev p). split; [| by apply blank_rev].
  unfold rstrip. rewrite <- rev_app_distr, <- Hs. by rewrite rev_involutive.
Qed.

Lemma rstrip_last s c t : rstrip s = t ++ [c] → isspace c = false.
Proof.
  unfold rstrip. intros H. apply (f_equal (@rev N)) in H.
  rewrite rev_involutive, rev_app_distr in H. simpl in H.
  by apply lstrip_head in H.
Qed.

(** [v.strip()] drops whitespace, and only whitespace, at both ends: the
    text is a whitespace prefix, the stripped text and a whitespace
    suffix, and the stripped text neither starts nor ends with
    whitespace. *)
Theorem strip_spec s :
  ∃ p q,
    s = p ++ strip s ++ q ∧ blank p ∧ blank q ∧
    (∀ c t, strip s = c :: t → isspace c = false) ∧
    (∀ c t, strip s = t ++ [c] → isspace c = false).
Proof.
  destruct (lstrip_split s) as (p & Hs & Hp).
  destruct (rstrip_split (lstrip s)) as (q & Hl & Hq).
  exists p, q. fold (strip s) in Hl.
  split; [by rewrite <- Hl |]. split; [done |]. split; [done |].
  split.
  - intros c t Hc. rewrite Hc in Hl. by apply lstrip_head in Hl.
  - intros c t Hc. by apply (rstrip_last (lstrip s) c t).
Qed.

(** The name validator never changes the name: it returns its argument
    as it is when some character is not whitespace, and raises when all
    are (among them the empty name). *)
Theorem name_validator_spec v :
  (name_must_not_be_blank v = Some v ∧ ∃ c, c ∈ v ∧ isspace c = false) ∨
  (name_must_not_be_blank v = None ∧ ∀ c, c ∈ v → isspace c = true).
Proof.
  destruct (name_must_not_be_blank v) as [v' |] eqn:Hv.
  - apply name_must_not_be_blank_Some in Hv as [-> Hnb].
    left. split; [done | by apply not_blank_exists].
  - right. split; [done | by apply name_must_not_be_blank_None].
Qed.

(** The upper bounds and the required fields: a name of more than 50
    characters is rejected; a body without id or without name is
    rejected; with a valid id and name, a description of up to 200
    characters that holds no surrogate, the empty one included, is
    accepted and kept as it is, distinct from an absent one. *)
Theorem validation_upper_bounds :
  (∀ raw n, in_name raw = Some n → len n > 50 → accepted raw = false) ∧
  (∀ raw, in_id raw = None ∨ in_name raw = None → accepted raw = false) ∧
  (∀ i n d,
     i > 0 → 3 ≤ len n ≤ 50 → ¬ blank n → utf8_encodable n = true →
     len d ≤ 200 → utf8_encodable d = true →
     Item_validate {| in_id := Some i; in_name := Some n;
                      in_description := Some d |}
     = inr {| id := i; name := n; description := Some d |}) ∧
  (∀ i n,
     i > 0 → 3 ≤ len n ≤ 50 → ¬ blank n → utf8_encodable n = true →
     Item_validate {| in_id := Some i; in_name := Some n;
                      in_description := Some [] |}
     ≠ Item_validate {| in_id := Some i; in_name := Some n;
                        in_description := None |}).
Proof.
  split.
  { intros raw n Hn Hlen. apply accepted_false.
    intros it -> (_ & ((_ & Hhi) & _) & _). simpl in Hn.
    injection Hn as <-. lia. }
  split.
  { intros raw Hmiss. apply accepted_false. intros it ->.
    simpl in Hmiss. by destruct Hmiss. }
  split.
  { intros i n d Hi Hlen Hnb Hu Hd Hud. by apply validate_accepts. }
  intros i n Hi Hlen Hnb Hu.
  by rewrite (validate_accepts i n (Some [])), (validate_accepts i n None).
Qed.

End Validator.

(** ** The status of every answer *)

Section Contract.

Implicit Types (db : gmap Z Item) (it item : Item) (k item_id : Z)
  (raw : ItemIn) (req : Request).

Lemma contains_cases k db :
  (contains k db = true ∧ is_Some (db !! k)) ∨
  (contains k db = false ∧ db !! k = None).
Proof.
  unfold contains. destruct (db !! k) as [it |]; [left | right]; by eauto.
Qed.


(** The service answers with one of six status codes, and a request
    answered with an error status (400 or above) leaves the store exactly
    as it found it. *)
Theorem error_leaves_store req db :
  status (fst (app req db)) ∈ ([200; 201; 400; 404; 422; 500] : list Z) ∧
  (400 ≤ status (fst (app req db)) → snd (app req db) = db).
Proof.
  destruct req as [raw | item_id | item_id raw | item_id |]; cbn [app];
    unfold route, unprocessable, create_item, get_item, update_item,
      delete_item, read_root;
    try destruct (Item_validate raw) as [errs | it];
    try destruct (body_encodable raw);
    try destruct (contains _ db);
    try destruct (db !! item_id);
    simpl; (split; [set_solver | (done || lia)]).
Qed.

End Contract.

(** ** How the operations compose *)

Section Compose.

Implicit Types (db : gmap Z Item) (it item a b : Item) (k j item_id : Z)
  (raw : ItemIn) (req r : Request).

(** Deleting what was just created gives back the store as it was
    before the create: for an id that is not a key, create succeeds, the
    delete of that id succeeds, and the store is the original one. *)
Theorem create_delete_restores it db :
  db !! id it = None →
  let db1 := snd (create_item it db) in
  returned (fst (create_item it db)) = true ∧
  returned (fst (delete_item (id it) db1)) = true ∧
  snd (delete_item (id it) db1) = db.
Proof.
  intros Hfresh db1. subst db1.
  rewrite (create_item_fresh _ _ Hfresh). cbn [fst snd returned].
  rewrite delete_item_found by (rewrite lookup_insert_eq; by eexists).
  cbn [fst snd returned]. rewrite delete_insert_eq.
  by rewrite (delete_id _ _ Hfresh).
Qed.

(** An id is free again after its delete: for a key [k] and an Item
    with id [k], delete followed by create succeeds and leaves the store
    that update would have left; when the Item is the one that was
    stored, the store is back to what it was. *)
Theorem delete_create_is_update k it db :
  is_Some (db !! k) →
  id it = k →
  let db1 := snd (delete_item k db) in
  fst (create_item it db1) = Return it ∧
  snd (create_item it db1) = snd (update_item k it db) ∧
  (db !! k = Some it → snd (create_item it db1) = db).
Proof.
  intros Hin Hid db1. subst db1.
  rewrite (delete_item_found _ _ Hin), (update_item_found _ it _ Hin).
  cbn [fst snd]. rewrite create_item_fresh by (rewrite Hid; apply lookup_delete_eq).
  cbn [fst snd]. rewrite Hid, insert_delete_eq.
  split; [done |]. split; [done |]. intros Hsame. by apply insert_id.
Qed.

(** The last update wins: for a key [k], update with [a] followed by
    update with [b] succeeds and leaves the store that update with [b]
    alone leaves; and an update with the Item already stored changes
    nothing. *)
Theorem update_last_wins k a b db :
  is_Some (db !! k) →
  let db1 := snd (update_item k a db) in
  fst (update_item k b db1) = Return b ∧
  snd (update_item k b db1) = snd (update_item k b db) ∧
  (db !! k = Some a → db1 = db).
Proof.
  intros Hin db1. subst db1.
  rewrite (update_item_found _ a _ Hin), (update_item_found _ b _ Hin).
  cbn [fst snd].
  rewrite update_item_found by (rewrite lookup_insert_eq; by eexists).
  cbn [fst snd]. rewrite insert_insert_eq.
  split; [done |]. split; [done |]. intros Hsame. by apply insert_id.
Qed.

Lemma validate_key raw it : Item_validate raw = inr it → in_id raw = Some (id it).
Proof. by intros [-> _]%Item_validate_iff. Qed.

(** A request leaves every entry it does not address as it was. *)
Lemma app_frame req db k :
  req_key req ≠ Some k → snd (app req db) !! k = db !! k.
Proof.
  destruct req as [raw | item_id | item_id raw | item_id |]; cbn [app req_key];
    unfold route, unprocessable, create_item, get_item, update_item,
      delete_item, read_root; intros Hk.
  - destruct (Item_validate raw) as [errs | it] eqn:Hv;
      [by destruct (body_encodable raw) |].
    rewrite (validate_key _ _ Hv) in Hk.
    destruct (contains (id it) db); simpl; [done |].
    apply lookup_insert_ne. congruence.
  - by destruct (db !! item_id).
  - destruct (Item_validate raw) as [errs | it];
      [by destruct (body_encodable raw) |].
    destruct (contains item_id db); simpl; [| done].
    apply lookup_insert_ne. congruence.
  - destruct (contains item_id db); simpl; [| done].
    apply lookup_delete_ne. congruence.
  - done.
Qed.

(** The answer to a request, and the entry it leaves at the id it
    addresses, depend on the store only through the entry at that id. *)
Lemma app_local req db1 db2 :
  (∀ k, req_key req = Some k → db1 !! k = db2 !! k) →
  fst (app req db1) = fst (app req db2) ∧
  ∀ k, req_key req = Some k →
       snd (app req db1) !! k = snd (app req db2) !! k.
Proof.
  destruct req as [raw | item_id | item_id raw | item_id |]; cbn [app req_key];
    unfold route, unprocessable, create_item, get_item, update_item,
      delete_item, read_root, contains; intros Hsame.
  - destruct (Item_validate raw) as [errs | it] eqn:Hv;
      [destruct (body_encodable raw); by auto |].
    pose proof (validate_key _ _ Hv) as Hkey.
    rewrite (Hsame _ Hkey). destruct (db2 !! id it) eqn:H2; simpl.
    + split; [done |]. intros k Hk. by apply Hsame.
    + split; [done |]. intros k Hk. rewrite Hkey in Hk.
      injection Hk as <-. by rewrite !lookup_insert_eq.
  - rewrite (Hsame item_id eq_refl). destruct (db2 !! item_id); simpl;
      (split; [done |]; intros k Hk; by apply Hsame).
  - destruct (Item_validate raw) as [errs | it];
      [destruct (body_encodable raw); by auto |].
    rewrite (Hsame item_id eq_refl). destruct (db2 !! item_id); simpl.
    + split; [done |]. intros k [= <-]. by rewrite !lookup_insert_eq.
    + split; [done |]. intros k Hk. by apply Hsame.
  - rewrite (Hsame item_id eq_refl). destruct (db2 !! item_id); simpl.
    + split; [done |]. intros k [= <-]. by rewrite !lookup_delete_eq.
    + split; [done |]. intros k Hk. by apply Hsame.
  - done.
Qed.

Lemma independent_ne r1 r2 k :
  independent r1 r2 → req_key r1 = Some k → req_key r2 ≠ Some k.
Proof.
  unfold independent. intros Hind H1. rewrite H1 in Hind.
  destruct (req_key r2) as [k2 |]; [| done]. congruence.
Qed.

Lemma independent_sym r1 r2 : independent r1 r2 → independent r2 r1.
Proof.
  unfold independent.
  by destruct (req_key r1), (req_key r2).
Qed.

(** Requests that address different ids do not affect each other: each
    gets the answer it would get if the other had not been served, and
    serving them in either order leaves the same store. *)
Theorem independent_requests_commute r1 r2 db :
  independent r1 r2 →
  fst (app r1 (snd (app r2 db))) = fst (app r1 db) ∧
  fst (app r2 (snd (app r1 db))) = fst (app r2 db) ∧
  snd (app r1 (snd (app r2 db))) = snd (app r2 (snd (app r1 db))).
Proof.
  intros H12. pose proof (independent_sym _ _ H12) as H21.
  assert (Hl : ∀ ra rb, independent ra rb →
    ∀ k, req_key ra = Some k → snd (app rb db) !! k = db !! k).
  { intros ra rb Hind k Hk. apply app_frame. by apply (independent_ne ra). }
  split; [apply app_local, (Hl r1 r2 H12) |].
  split; [apply app_local, (Hl r2 r1 H21) |].
  apply map_eq. intros j.
  destruct (decide (req_key r1 = Some j)) as [H1 | H1].
  - rewrite (proj2 (app_local r1 _ db (Hl r1 r2 H12)) j H1).
    symmetry. apply app_frame. by apply (independent_ne r1).
  - rewrite (app_frame r1 _ j H1).
    destruct (decide (req_key r2 = Some j)) as [H2 | H2].
    + symmetry. by apply (app_local r2 _ db (Hl r2 r1 H21)).
    + by rewrite !(app_frame r2 _ j H2), (app_frame r1 _ j H1).
Qed.

Lemma size_delete_present db k :
  is_Some (db !! k) → size db = S (size (delete k db)).
Proof.
  intros [x Hx].
  rewrite <- (insert_id db k x Hx) at 1. rewrite <- insert_delete_eq.
  apply map_size_insert_None, lookup_delete_eq.
Qed.

(** The number of stored Items goes up by exactly one with a create
    answered 201, down by exactly one with a delete answered 200 (the
    store held at least one Item before), and stays the same with every
    other request. *)
Theorem store_size_accounting req db :
  match req, status (fst (app req db)) with
  | POST_items _, 201 => size (snd (app req db)) = S (size db)
  | DELETE_items _, 200 => size db = S (size (snd (app req db)))
  | _, _ => size (snd (app req db)) = size db
  end.
Proof.
  destruct req as [raw | item_id | item_id raw | item_id |]; cbn [app];
    unfold route, unprocessable, create_item, get_item, update_item,
      delete_item, read_root, contains.
  - destruct (Item_validate raw) as [errs | it];
      [by destruct (body_encodable raw) |].
    destruct (db !! id it) eqn:Hk; simpl; [done |].
    by apply map_size_insert_None.
  - by destruct (db !! item_id).
  - destruct (Item_validate raw) as [errs | it];
      [by destruct (body_encodable raw) |].
    destruct (db !! item_id) eqn:Hk; simpl; [| done].
    apply map_size_insert_Some. by eexists.
  - destruct (db !! item_id) eqn:Hk; simpl; [| done].
    apply size_delete_present. by eexists.
  - done.
Qed.

End Compose.

(** ** More invariants of the store *)

Section Invariants.

Implicit Types (db : gmap Z Item) (it item : Item) (k item_id : Z)
  (c : Call) (req : Request).

(** Only a create adds a key, and the key is the id of its Item. *)
Lemma after_key c db k :
  is_Some (after c db !! k) →
  is_Some (db !! k) ∨ ∃ item, c = call_create item ∧ id item = k.
Proof.
  destruct c as [item | item_id | item_id item | item_id |]; simpl;
    unfold create_item, get_item, update_item, delete_item, contains.
  - destruct (db !! id item) eqn:Hc; simpl; [by left |].
    destruct (decide (id item = k)) as [<- | Hne].
    + right. by exists item.
    + rewrite lookup_insert_ne by done. by left.
  - destruct (db !! item_id); simpl; by left.
  - destruct (db !! item_id) eqn:Hc; simpl; [| by left].
    destruct (decide (item_id = k)) as [<- | Hne].
    + intros _. left. by eexists.
    + rewrite lookup_insert_ne by done. by left.
  - destruct (db !! item_id) eqn:Hc; simpl; [| by left].
    destruct (decide (item_id = k)) as [<- | Hne].
    + rewrite lookup_delete_eq. by intros [? ?].
    + rewrite lookup_delete_ne by done. by left.
  - by left.
Qed.

Lemma reachable_key_pos db k : reachable db → is_Some (db !! k) → k > 0.
Proof.
  intros Hreach. revert k.
  induction Hreach as [| c db Hreach IH Hok]; intros k Hk.
  - unfold items_db0 in Hk. rewrite lookup_empty in Hk. by destruct Hk.
  - apply after_key in Hk as [Hold | (item & -> & <-)]; [by apply IH |].
    simpl in Hok. apply Item_ok_constraints in Hok. by destruct Hok.
Qed.

(** Every key the store ever holds is a positive id, so in every state
    the store reaches a get, an update or a delete of an id that is 0 or
    negative is answered 404. *)
Theorem reachable_keys_positive db k :
  reachable db →
  (is_Some (db !! k) → k > 0) ∧
  (k ≤ 0 →
   db !! k = None ∧
   status (fst (app (GET_items k) db)) = 404 ∧
   status (fst (app (DELETE_items k) db)) = 404 ∧
   ∀ it, fst (update_item k it db) =
         Raise {| status_code := 404; detail := lit "Item not found" |}).
Proof.
  intros Hreach. split; [by apply reachable_key_pos |].
  intros Hk.
  assert (Habs : db !! k = None).
  { destruct (db !! k) as [it |] eqn:Hl; [| done].
    assert (k > 0) by (apply (reachable_key_pos db); [done | by eexists; eauto]).
    lia. }
  split; [done |]. cbn [app]. unfold route.
  rewrite (get_item_absent _ _ Habs), (delete_item_absent _ _ Habs).
  split; [done |]. split; [done |].
  intros it. by rewrite (update_item_absent _ it _ Habs).
Qed.

Lemma after_keyed c db : keyed db → call_keyed c = true → keyed (after c db).
Proof.
  intros Hdb Hc k it Hk.
  destruct c as [item | item_id | item_id item | item_id |]; simpl in *;
    unfold create_item, get_item, update_item, delete_item, contains in Hk.
  - destruct (db !! id item) eqn:Hl; simpl in Hk; [by apply Hdb |].
    destruct (decide (id item = k)) as [<- | Hne].
    + rewrite lookup_insert_eq in Hk. by injection Hk as <-.
    + rewrite lookup_insert_ne in Hk by done. by apply Hdb.
  - destruct (db !! item_id); simpl in Hk; by apply Hdb.
  - apply bool_decide_eq_true in Hc.
    destruct (db !! item_id) eqn:Hl; simpl in Hk; [| by apply Hdb].
    destruct (decide (item_id = k)) as [<- | Hne].
    + rewrite lookup_insert_eq in Hk. by injection Hk as <-.
    + rewrite lookup_insert_ne in Hk by done. by apply Hdb.
  - destruct (db !! item_id) eqn:Hl; simpl in Hk; [| by apply Hdb].
    destruct (decide (item_id = k)) as [<- | Hne].
    + by rewrite lookup_delete_eq in Hk.
    + rewrite lookup_delete_ne in Hk by done. by apply Hdb.
  - by apply Hdb.
Qed.

(** As long as every update carries in its body the id of its path,
    every stored Item sits under its own id, whatever creates, gets and
    deletes are made, and a get of an id returns an Item with that id. *)
Theorem keyed_preserved cs db :
  keyed db →
  forallb call_keyed cs = true →
  keyed (run cs db) ∧
  ∀ k it, fst (get_item k (run cs db)) = Return it → id it = k.
Proof.
  intros Hdb Hcs.
  assert (Hrun : keyed (run cs db)).
  { revert db Hdb. induction cs as [| c cs IH]; intros db Hdb; [done |].
    simpl in Hcs. apply andb_prop in Hcs as [Hc Hcs].
    simpl. apply (IH Hcs). by apply after_keyed. }
  split; [done |]. intros k it. unfold get_item.
  destruct (run cs db !! k) as [it' |] eqn:Hk; simpl; [| done].
  intros [= <-]. by apply Hrun.
Qed.

Lemma app_item_ok req db it :
  reachable db → body (fst (app req db)) = JItem it → Item_ok it = true.
Proof.
  intros Hreach.
  destruct req as [raw | item_id | item_id raw | item_id |]; cbn [app];
    unfold route, unprocessable, create_item, get_item, update_item,
      delete_item, read_root.
  - destruct (Item_validate raw) as [errs | item] eqn:Hv;
      [by destruct (body_encodable raw) |].
    destruct (contains (id item) db); simpl; [done |].
    intros [= <-]. by apply (Item_validate_ok raw).
  - destruct (db !! item_id) as [item |] eqn:Hk; simpl; [| done].
    intros [= <-]. by apply (reachable_Item_ok db item_id).
  - destruct (Item_validate raw) as [errs | item] eqn:Hv;
      [by destruct (body_encodable raw) |].
    destruct (contains item_id db); simpl; [| done].
    intros [= <-]. by apply (Item_validate_ok raw).
  - by destruct (contains item_id db).
  - done.
Qed.

Lemma serve_item_ok reqs db resp it :
  reachable db → resp ∈ fst (serve reqs db) → body resp = JItem it →
  Item_ok it = true.
Proof.
  revert db. induction reqs as [| req reqs IH]; intros db Hreach; simpl.
  - by intros ?%elem_of_nil.
  - pose proof (app_item_ok req db it Hreach) as Hhead.
    pose proof (app_reachable req db Hreach) as Hnext.
    destruct (app req db) as [r db1]. simpl in Hhead, Hnext.
    specialize (IH db1 Hnext). destruct (serve reqs db1) as [rs db2].
    simpl in *. intros [-> | Hin]%elem_of_cons; [done | by apply IH].
Qed.

(** Whatever requests are served from the start of the process, every
    Item the service sends back in an answer satisfies the field
    constraints. *)
Theorem served_items_valid reqs resp it :
  resp ∈ fst (serve reqs items_db0) →
  body resp = JItem it →
  id it > 0 ∧
  (3 ≤ len (name it) ≤ 50 ∧ ∃ ch, ch ∈ name it ∧ isspace ch = false) ∧
  match description it with
  | None => True
  | Some s => len s ≤ 200
  end.
Proof.
  intros Hin Hbody. apply (Item_ok_constraints it).
  apply (serve_item_ok reqs items_db0 resp); [apply reach_start | done | done].
Qed.

End Invariants.

(** ** The test module *)

Section TestModule.

Implicit Types (db : gmap Z Item) (it : Item).

Lemma validate_item1 :
  Item_validate {| in_id := Some 1; in_name := Some (lit "Item1");
                   in_description := Some (lit "A test item") |}
  = inr item1.
Proof. reflexivity. Qed.

Lemma validate_item1_updated :
  Item_validate {| in_id := Some 1; in_name := Some (lit "UpdatedItem");
                   in_description := Some (lit "Updated description") |}
  = inr item1_updated.
Proof. reflexivity. Qed.

Lemma validate_item999 :
  Item_validate {| in_id := Some 999; in_name := Some (lit "NonExistent");
                   in_description := Some (lit "Does not exist") |}
  = inr item999.
Proof. reflexivity. Qed.

Lemma test_create_item_fresh db :
  db !! 1 = None → test_create_item db = (true, <[1 := item1]> db).
Proof.
  intros H. unfold test_create_item. cbn [app]. rewrite validate_item1.
  unfold route. by rewrite (create_item_fresh item1 db H).
Qed.

Lemma test_create_item_taken db :
  is_Some (db !! 1) → test_create_item db = (false, db).
Proof.
  intros H. unfold test_create_item. cbn [app]. rewrite validate_item1.
  unfold route. by rewrite (create_item_taken item1 db H).
Qed.

Lemma test_get_item_found db it :
  db !! 1 = Some it → test_get_item db = (bool_decide (id it = 1), db).
Proof.
  intros H. unfold test_get_item. cbn [app]. unfold route.
  by rewrite (get_item_found 1 it db H).
Qed.

Lemma test_get_item_absent db : db !! 1 = None → test_get_item db = (false, db).
Proof.
  intros H. unfold test_get_item. cbn [app]. unfold route.
  by rewrite (get_item_absent 1 db H).
Qed.

Lemma test_get_item_404_absent db :
  db !! 999 = None → test_get_item_404 db = (true, db).
Proof.
  intros H. unfold test_get_item_404. cbn [app]. unfold route.
  by rewrite (get_item_absent 999 db H).
Qed.

Lemma test_get_item_404_found db :
  is_Some (db !! 999) → test_get_item_404 db = (false, db).
Proof.
  intros [it H]. unfold test_get_item_404. cbn [app]. unfold route.
  by rewrite (get_item_found 999 it db H).
Qed.

Lemma test_update_item_found db :
  is_Some (db !! 1) → test_update_item db = (true, <[1 := item1_updated]> db).
Proof.
  intros H. unfold test_update_item. cbn [app]. rewrite validate_item1_updated.
  unfold route. by rewrite (update_item_found 1 item1_updated db H).
Qed.

Lemma test_update_item_absent db :
  db !! 1 = None → test_update_item db = (false, db).
Proof.
  intros H. unfold test_update_item. cbn [app]. rewrite validate_item1_updated.
  unfold route. by rewrite (update_item_absent 1 item1_updated db H).
Qed.

Lemma test_update_item_404_absent db :
  db !! 999 = None → test_update_item_404 db = (true, db).
Proof.
  intros H. unfold test_update_item_404. cbn [app]. rewrite validate_item999.
  unfold route. by rewrite (update_item_absent 999 item999 db H).
Qed.

Lemma test_update_item_404_found db :
  is_Some (db !! 999) →
  test_update_item_404 db = (false, <[999 := item999]> db).
Proof.
  intros H. unfold test_update_item_404. cbn [app]. rewrite validate_item999.
  unfold route. by rewrite (update_item_found 999 item999 db H).
Qed.

Lemma test_delete_item_found db :
  is_Some (db !! 1) → test_delete_item db = (true, delete 1 db).
Proof.
  intros H. unfold test_delete_item. cbn [app]. unfold route.
  by rewrite (delete_item_found 1 db H).
Qed.

Lemma test_delete_item_absent db :
  db !! 1 = None → test_delete_item db = (false, db).
Proof.
  intros H. unfold test_delete_item. cbn [app]. unfold route.
  by rewrite (delete_item_absent 1 db H).
Qed.

Lemma test_delete_item_404_absent db :
  db !! 999 = None → test_delete_item_404 db = (true, db).
Proof.
  intros H. unfold test_delete_item_404. cbn [app]. unfold route.
  by rewrite (delete_item_absent 999 db H).
Qed.

Lemma test_delete_item_404_found db :
  is_Some (db !! 999) → test_delete_item_404 db = (false, delete 999 db).
Proof.
  intros H. unfold test_delete_item_404. cbn [app]. unfold route.
  by rewrite (delete_item_found 999 db H).
Qed.

End TestModule.

Section TestSuite.

Implicit Types (db : gmap Z Item) (it : Item).

Lemma is_Some_cases db (k : Z) : is_Some (db !! k) ∨ db !! k = None.
Proof. destruct (db !! k); [left; by eexists | by right]. Qed.

(** What each test needs of the store it finds: the create test passes
    exactly when 1 is not a key; the get test exactly when key 1 holds an
    Item whose id field is 1; the update and delete tests exactly when 1
    is a key; each of the three 404 tests exactly when 999 is not a
    key. *)
Theorem test_pass_conditions db :
  (fst (test_create_item db) = true ↔ db !! 1 = None) ∧
  (fst (test_get_item db) = true ↔ ∃ it, db !! 1 = Some it ∧ id it = 1) ∧
  (fst (test_get_item_404 db) = true ↔ db !! 999 = None) ∧
  (fst (test_update_item db) = true ↔ is_Some (db !! 1)) ∧
  (fst (test_update_item_404 db) = true ↔ db !! 999 = None) ∧
  (fst (test_delete_item db) = true ↔ is_Some (db !! 1)) ∧
  (fst (test_delete_item_404 db) = true ↔ db !! 999 = None).
Proof.
  assert (Hno : ∀ k : Z, is_Some (db !! k) → db !! k = None → False).
  { intros k [it Hk] Hn. congruence. }
  destruct (is_Some_cases db 1) as [H1 | H1],
    (is_Some_cases db 999) as [H9 | H9].
  all: split_and!.
  all: try (rewrite (test_create_item_fresh db H1));
       try (rewrite (test_create_item_taken db H1));
       try (rewrite (test_get_item_absent db H1));
       try (rewrite (test_get_item_404_absent db H9));
       try (rewrite (test_get_item_404_found db H9));
       try (rewrite (test_update_item_found db H1));
       try (rewrite (test_update_item_absent db H1));
       try (rewrite (test_update_item_404_absent db H9));
       try (rewrite (test_update_item_404_found db H9));
       try (rewrite (test_delete_item_found db H1));
       try (rewrite (test_delete_item_absent db H1));
       try (rewrite (test_delete_item_404_absent db H9));
       try (rewrite (test_delete_item_404_found db H9)).
  all: cbn [fst].
  all: try (split; [done | by intros H; destruct (Hno _ H1 H)]).
  all: try (split; [done | by intros H; destruct (Hno _ H9 H)]).
  all: try (split; [done | by intros H; destruct (Hno _ H H1)]).
  all: try done.
  all: try (split; [done | intros (it & Hit & _); congruence]).
  all: destruct H1 as [it Hit]; rewrite (test_get_item_found db it Hit);
       cbn [fst]; rewrite bool_decide_eq_true;
       (split; [intros Hid; by exists it | intros (it' & Hit' & Hid); congruence]).
Qed.

Lemma test_main_pass db :
  db !! 1 = None → db !! 999 = None →
  run_tests test_main db =
  ([true; true; true; true; true; true; true], db).
Proof.
  intros H1 H9. unfold test_main. cbn [run_tests].
  rewrite (test_create_item_fresh db H1).
  assert (Ha : <[1 := item1]> db !! 1 = Some item1) by apply lookup_insert_eq.
  assert (Ha9 : <[1 := item1]> db !! 999 = None)
    by (by rewrite lookup_insert_ne).
  rewrite (test_get_item_found _ item1 Ha), (test_get_item_404_absent _ Ha9).
  rewrite test_update_item_found by (by eexists).
  rewrite insert_insert_eq.
  assert (Hb : <[1 := item1_updated]> db !! 1 = Some item1_updated)
    by apply lookup_insert_eq.
  assert (Hb9 : <[1 := item1_updated]> db !! 999 = None)
    by (by rewrite lookup_insert_ne).
  rewrite (test_update_item_404_absent _ Hb9).
  rewrite test_delete_item_found by (by eexists).
  rewrite delete_insert_eq, (delete_id _ _ H1).
  by rewrite (test_delete_item_404_absent _ H9).
Qed.

Lemma run_tests_cons t ts db :
  run_tests (t :: ts) db =
  (fst (t db) :: fst (run_tests ts (snd (t db))),
   snd (run_tests ts (snd (t db)))).
Proof.
  simpl. destruct (t db) as [ok db1]. cbn [fst snd].
  by destruct (run_tests ts db1).
Qed.

Lemma test_main_fail db :
  is_Some (db !! 1) ∨ is_Some (db !! 999) →
  all_passed (fst (run_tests test_main db)) = false.
Proof.
  intros Hbad. unfold test_main. rewrite run_tests_cons. cbn [fst].
  destruct (is_Some_cases db 1) as [H1 | H1].
  - by rewrite (test_create_item_taken db H1).
  - destruct Hbad as [[it Hit] | H9]; [congruence |].
    rewrite (test_create_item_fresh db H1). cbn [fst snd].
    assert (Ha : <[1 := item1]> db !! 1 = Some item1) by apply lookup_insert_eq.
    assert (Ha9 : is_Some (<[1 := item1]> db !! 999))
      by (by rewrite lookup_insert_ne).
    rewrite !run_tests_cons. cbn [fst].
    rewrite (test_get_item_found _ item1 Ha). cbn [fst snd].
    by rewrite (test_get_item_404_found _ Ha9).
Qed.

(** The test module, run in file order on a shared store, passes as a
    whole exactly when the store it starts from holds neither key 1 nor
    key 999; and when it passes it leaves the store exactly as it found
    it, so it passes again when run a second time. *)
Theorem test_main_passes_iff db :
  (all_passed (fst (run_tests test_main db)) = true ↔
   db !! 1 = None ∧ db !! 999 = None) ∧
  (all_passed (fst (run_tests test_main db)) = true →
   snd (run_tests test_main db) = db ∧
   all_passed (fst (run_tests test_main (snd (run_tests test_main db))))
   = true).
Proof.
  destruct (is_Some_cases db 1) as [H1 | H1].
  { rewrite (test_main_fail db (or_introl H1)). split; [| done].
    split; [done |]. intros [Hn _]. destruct H1 as [it Hit]. congruence. }
  destruct (is_Some_cases db 999) as [H9 | H9].
  { rewrite (test_main_fail db (or_intror H9)). split; [| done].
    split; [done |]. intros [_ Hn]. destruct H9 as [it Hit]. congruence. }
  rewrite (test_main_pass db H1 H9). cbn [fst snd].
  rewrite (test_main_pass db H1 H9). by repeat split.
Qed.

End TestSuite.

(** ** The confirmation of a delete *)

Section DeleteMessage.

Implicit Types (db : gmap Z Item) (k : Z).

(** The confirmation a delete returns names the id it deleted: two
    successful deletes return the same value only for the same id. *)
Theorem delete_message_names_id k1 k2 db1 db2 :
  is_Some (db1 !! k1) →
  is_Some (db2 !! k2) →
  fst (delete_item k1 db1) = fst (delete_item k2 db2) →
  k1 = k2.
Proof.
  intros H1 H2.
  rewrite (delete_item_found _ _ H1), (delete_item_found _ _ H2).
  cbn [fst]. intros [= Heq].
  apply app_inv_tail in Heq. by apply of_int_inj.
Qed.

End DeleteMessage.

(** ** Further instances on the data of the test suite *)

Section MoreInstances.

Lemma db_item1_has_1 : is_Some (db_item1 !! 1).
Proof. exists item1. reflexivity. Defined.

Lemma validation_upper_bounds_witness :
  accepted {| in_id := Some 1; in_name := Some (replicate 51 97%N);
              in_description := None |} = false ∧
  accepted {| in_id := None; in_name := Some (lit "Item1");
              in_description := None |} = false ∧
  Item_validate {| in_id := Some 1; in_name := Some (replicate 50 97%N);
                   in_description := Some (replicate 200 97%N) |}
  = inr {| id := 1; name := replicate 50 97%N;
           description := Some (replicate 200 97%N) |}.
Proof.
  destruct validation_upper_bounds as (Hlong & Hmiss & Hok & _).
  split; [apply (Hlong _ (replicate 51 97%N)); reflexivity |].
  split; [apply Hmiss; by left |].
  apply Hok; [reflexivity | by split | | reflexivity | by vm_compute |
              reflexivity].
  intros Hb. specialize (Hb 97%N). discriminate Hb. apply list_elem_of_here.
Defined.

Lemma error_leaves_store_witness :
  400 ≤ status (fst (app (GET_items 999) db_item1)) ∧
  snd (app (GET_items 999) db_item1) = db_item1.
Proof.
  assert (Hst : 400 ≤ status (fst (app (GET_items 999) db_item1)))
    by (by vm_compute).
  split; [exact Hst |].
  exact (proj2 (error_leaves_store (GET_items 999) db_item1) Hst).
Defined.

Lemma create_delete_restores_witness :
  items_db0 !! id item1 = None ∧
  snd (delete_item (id item1) (snd (create_item item1 items_db0))) = items_db0.
Proof.
  split; [reflexivity |].
  apply (create_delete_restores item1 items_db0). reflexivity.
Defined.

Lemma delete_create_is_update_witness :
  is_Some (db_item1 !! 1) ∧ id item1_updated = 1 ∧
  snd (create_item item1_updated (snd (delete_item 1 db_item1)))
  = snd (update_item 1 item1_updated db_item1).
Proof.
  split; [exact db_item1_has_1 |]. split; [reflexivity |].
  apply (delete_create_is_update 1 item1_updated db_item1);
    [exact db_item1_has_1 | reflexivity].
Defined.

Lemma update_last_wins_witness :
  is_Some (db_item1 !! 1) ∧
  snd (update_item 1 item1_updated (snd (update_item 1 item999 db_item1)))
  = snd (update_item 1 item1_updated db_item1).
Proof.
  split; [exact db_item1_has_1 |].
  apply (update_last_wins 1 item999 item1_updated db_item1).
  exact db_item1_has_1.
Defined.

Lemma independent_requests_commute_witness :
  independent (DELETE_items 1) (POST_items (fields item999)) ∧
  snd (app (DELETE_items 1) (snd (app (POST_items (fields item999)) db_item1)))
  = snd (app (POST_items (fields item999)) (snd (app (DELETE_items 1) db_item1))).
Proof.
  assert (Hind : independent (DELETE_items 1) (POST_items (fields item999)))
    by (unfold independent; simpl; lia).
  split; [exact Hind |].
  apply (independent_requests_commute _ _ db_item1 Hind).
Defined.

Lemma reachable_keys_positive_witness :
  reachable db_item1 ∧ (0 : Z) ≤ 0 ∧
  status (fst (app (GET_items 0) db_item1)) = 404.
Proof.
  assert (Hreach : reachable db_item1).
  { apply (reach_call (call_create item1) items_db0);
      [apply reach_start | reflexivity]. }
  split; [exact Hreach |]. split; [lia |].
  apply (reachable_keys_positive db_item1 0 Hreach). lia.
Defined.

Lemma keyed_preserved_witness :
  keyed items_db0 ∧
  forallb call_keyed
    [call_create item1; call_update 1 item1_updated; call_create item999;
     call_delete 999] = true ∧
  keyed (run [call_create item1; call_update 1 item1_updated;
              call_create item999; call_delete 999] items_db0).
Proof.
  assert (Hstart : keyed items_db0).
  { intros k it Hk. unfold items_db0 in Hk. by rewrite lookup_empty in Hk. }
  split; [exact Hstart |]. split; [reflexivity |].
  apply (keyed_preserved _ items_db0 Hstart). reflexivity.
Defined.

Lemma served_items_valid_witness :
  {| status := 201; body := JItem item1 |}
    ∈ fst (serve test_requests items_db0) ∧
  id item1 > 0.
Proof.
  assert (Hin : {| status := 201; body := JItem item1 |}
                  ∈ fst (serve test_requests items_db0))
    by (vm_compute; apply list_elem_of_here).
  split; [exact Hin |].
  apply (served_items_valid test_requests _ item1 Hin). reflexivity.
Defined.

Lemma test_main_passes_iff_witness :
  all_passed (fst (run_tests test_main items_db0)) = true ∧
  snd (run_tests test_main items_db0) = items_db0.
Proof.
  assert (Hpass : all_passed (fst (run_tests test_main items_db0)) = true)
    by (by vm_compute).
  split; [exact Hpass |].
  apply (proj2 (test_main_passes_iff items_db0) Hpass).
Defined.

Lemma delete_message_names_id_witness :
  is_Some (db_item1 !! 1) ∧
  fst (delete_item 1 db_item1) = fst (delete_item 1 db_item1) ∧ (1 : Z) = 1.
Proof.
  split; [exact db_item1_has_1 |]. split; [reflexivity |].
  apply (delete_message_names_id 1 1 db_item1 db_item1);
    [exact db_item1_has_1 | exact db_item1_has_1 | reflexivity].
Defined.

End MoreInstances.
